(** * update_issues_fields.py: the status rule engine of the JIRA robot

    A shallow embedding of [src/update_issues_fields.py] and the properties
    of its rule evaluation ([isRuleApplicable]), of its transition decision
    ([updateStatusIfNeeded]) and of the per-project loop of [main].

    Python strings are [string]; the set literals of [STATUS_RULES] are
    [gset string]; the list [MODIFIABLE_STATUS] is a [list string].  The
    JIRA client and the logger are the two collaborators the script talks
    to: every call to either is recorded, in order, in the trace of the run,
    and the backend answers through an arbitrary state machine. *)

From Stdlib Require Import Ascii String NArith Lia.
From stdpp Require Import base decidable option list sets gmap strings pretty.

Open Scope string_scope.
Open Scope list_scope.
Set Warnings "-clear-no-such-hyp".

(** ** Strings *)

(** [name.upper()].  The script only relies on [str.upper] as a function from
    strings to strings, so the development is parametric in it; the instance
    below is its restriction to ASCII, where it maps [a]..[z] to [A]..[Z] and
    leaves every other character alone. *)
Class Upper := upper : string → string.

Definition upper_ascii (c : ascii) : ascii :=
  let n := N_of_ascii c in
  if ((97 <=? n) && (n <=? 122))%N then ascii_of_N (n - 32) else c.

Fixpoint upper_string (s : string) : string :=
  match s with
  | EmptyString => EmptyString
  | String c rest => String (upper_ascii c) (upper_string rest)
  end.

#[global] Instance ascii_upper : Upper := upper_string.

(** ** Constants (lines 32-59) *)

Definition YAML_PROJECT_KEYWORD : string := "projects".

Definition TO_DO : string := "TO DO".
Definition BLOCKED : string := "BLOCKED".
Definition IN_PROGRESS : string := "IN PROGRESS".
Definition DONE : string := "DONE".
Definition ACCEPTED : string := "ACCEPTED".

Definition MODIFIABLE_STATUS : list string := [TO_DO; BLOCKED; IN_PROGRESS; DONE].
Definition NON_MODIFIABLE_STATUS : list string := [ACCEPTED].
Definition SUPPORTED_STATUS : list string := MODIFIABLE_STATUS ++ NON_MODIFIABLE_STATUS.

Definition RULE_POLICY_AT_LEAST_ONE : string := "at_least_one".
Definition RULE_POLICY_ALL : string := "all".
Definition SUPPORTED_RULE_POLICY : gset string :=
  {[ RULE_POLICY_AT_LEAST_ONE; RULE_POLICY_ALL ]}.

(** A [STATUS_RULES] entry: [(TARGET_STATUS, (RULE_POLICY, {POSSIBLE_STATUSES}))]. *)
Definition Rule : Type := string * (string * gset string).

Definition STATUS_RULES : list Rule :=
  [ (DONE, (RULE_POLICY_ALL, {[ DONE; ACCEPTED ]}));
    (TO_DO, (RULE_POLICY_ALL, {[ TO_DO ]}));
    (BLOCKED, (RULE_POLICY_AT_LEAST_ONE, {[ BLOCKED ]}));
    (IN_PROGRESS, (RULE_POLICY_AT_LEAST_ONE, {[ IN_PROGRESS ]})) ].

(** ** Issues *)

(** A subtask as the script reads it: [subt.fields.status.name]. *)
Record Subtask := mkSubtask { subtask_status_name : string }.

#[global] Instance Subtask_eq_dec : EqDecision Subtask.
Proof. solve_decision. Defined.

(** A level-two issue as the script reads it: [issue.key],
    [issue.fields.status.name], [issue.fields.issuetype.name] and
    [issue.fields.subtasks]. *)
Record Issue := mkIssue {
  key : string;
  status_name : string;
  issuetype_name : string;
  subtasks : list Subtask
}.

(** ** The run: exceptions, the JIRA client, the logger *)

(** The exceptions of the script: what the JIRA client raises, and the
    [NameError] of line 178 ([filePath] is not bound in [main]). *)
Inductive exn :=
| JIRAError (text : string)
| NameError (name : string).

Inductive result (A : Type) :=
| Return (a : A)
| Raise (e : exn).
Arguments Return {A} a.
Arguments Raise {A} e.

Inductive level := DEBUG | INFO | WARNING | ERROR | CRITICAL.

(** The log records of the script, with the values each message is built
    from in place of the formatted text. *)
Inductive message :=
| StatusChangeResult (issueKey issueStatus newStatus : string)
                     (didStatusChanged : bool)            (* lines 94-95 *)
| NotSupportedRulePolicy (rulePolicy : string)            (* line 127 *)
| DryrunMode (dryrun : bool)                              (* line 183 *)
| StartProject (projectId : string)                       (* line 187 *)
| QueryError (e : exn)                                    (* line 191 *)
| PerformingVerification (issueKey issuetype : string)    (* line 199 *)
| EndOfOperations (possibleChanges performedChanges : nat). (* line 202 *)

(** What the script does to the outside, in the order it does it. *)
Inductive event :=
| transition_issue_call (issueKey status : string)
| search_issues_call (jql_str : string) (maxResults : nat)
| Log (lvl : level) (msg : message).

(** The JIRA server behind the client, as a state machine over a state [B]
    of its own: [transition] answers [jira.transition_issue(key, status)]
    and may raise; [matching] is the list of issues a JQL query selects, in
    the order the server returns them, and may raise as well. *)
Record JIRA (B : Type) := mkJIRA {
  transition : string → string → B → result () * B;
  matching : string → B → result (list Issue) * B
}.
Arguments mkJIRA {B} _ _.
Arguments transition {B} _ _ _ _.
Arguments matching {B} _ _ _.

Record Run (B : Type) := mkRun {
  backend : B;
  trace : list event
}.
Arguments mkRun {B} _ _.
Arguments backend {B} _.
Arguments trace {B} _.

(** A statement of the script: it runs from a state of the run and either
    returns a value or raises; the state it leaves is kept either way. *)
Definition M (B A : Type) : Type := Run B → result A * Run B.

#[global] Instance M_ret {B} : MRet (M B) := λ A a r, (Return a, r).

#[global] Instance M_bind {B} : MBind (M B) := λ A C f m r,
  match m r with
  | (Return a, r') => f a r'
  | (Raise e, r') => (Raise e, r')
  end.

Definition raise {B A} (e : exn) : M B A := λ r, (Raise e, r).

(** [try: body except Exception as e: handler]. *)
Definition try_except {B A} (body : M B A) (handler : exn → M B A) : M B A :=
  λ r, match body r with
       | (Return a, r') => (Return a, r')
       | (Raise e, r') => handler e r'
       end.

Definition emit {B} (e : event) : M B () :=
  λ r, (Return (), mkRun (backend r) (trace r ++ [e])).

(** [global_logger.debug/info/warn/error]. *)
Definition log {B} (lvl : level) (msg : message) : M B () := emit (Log lvl msg).

(** The server answers a request: its state moves, the trace does not. *)
Definition answer {B A} (request : B → result A * B) : M B A :=
  λ r, let '(res, b) := request (backend r) in (res, mkRun b (trace r)).

(** [jira.transition_issue(issueKey, status)]. *)
Definition transition_issue {B} (jira : JIRA B) (issueKey status : string) : M B () :=
  emit (transition_issue_call issueKey status);;
  answer (transition jira issueKey status).

(** [jira.search_issues(jql_str, maxResults=n)]: at most [n] of the issues
    that match the query, from the first one on. *)
Definition search_issues {B} (jira : JIRA B) (jql_str : string) (maxResults : nat)
  : M B (list Issue) :=
  emit (search_issues_call jql_str maxResults);;
  found ← answer (matching jira jql_str);
  mret (take maxResults found).

(** ** The rule engine *)

Section Engine.
Context {up : Upper} {B : Type}.

(** Lines 116-119, the loop of the [all] policy. *)
Fixpoint isRuleApplicable_all (possibleStatus : gset string)
    (subtasks : list Subtask) : bool :=
  match subtasks with
  | [] => true
  | subt :: rest =>
      if decide (upper (subtask_status_name subt) ∉ possibleStatus) then false
      else isRuleApplicable_all possibleStatus rest
  end.

(** Lines 121-124, the loop of the [at_least_one] policy. *)
Fixpoint isRuleApplicable_at_least_one (possibleStatus : gset string)
    (subtasks : list Subtask) : bool :=
  match subtasks with
  | [] => false
  | subt :: rest =>
      if decide (upper (subtask_status_name subt) ∈ possibleStatus) then true
      else isRuleApplicable_at_least_one possibleStatus rest
  end.

Definition isRuleApplicable (issue : Issue) (rulePolicy : string)
    (possibleStatus : gset string) : M B bool :=
  let subtasks := subtasks issue in
  if decide (rulePolicy = RULE_POLICY_ALL) then
    mret (isRuleApplicable_all possibleStatus subtasks)
  else if decide (rulePolicy = RULE_POLICY_AT_LEAST_ONE) then
    mret (isRuleApplicable_at_least_one possibleStatus subtasks)
  else
    log WARNING (NotSupportedRulePolicy rulePolicy);;
    mret false.

(** Lines 84-93, the loop over the rules: the values of [newStatus] and
    [didStatusChanged] when the loop is left. *)
Fixpoint updateStatusIfNeeded_rules (jira : JIRA B) (issueLevelTwo : Issue)
    (dryrun : bool) (rules : list Rule) : M B (string * bool) :=
  let issueStatus := status_name issueLevelTwo in
  match rules with
  | [] => mret (issueStatus, false)
  | (status, (rulePolicy, possibleStatus)) :: rest =>
      applicable ← isRuleApplicable issueLevelTwo rulePolicy possibleStatus;
      if applicable : bool then
        let newStatus := status in
        if bool_decide (newStatus ≠ issueStatus) && negb dryrun then
          transition_issue jira (key issueLevelTwo) newStatus;;
          mret (newStatus, true)
        else mret (newStatus, false)
      else updateStatusIfNeeded_rules jira issueLevelTwo dryrun rest
  end.

Definition updateStatusIfNeeded (jira : JIRA B) (issueLevelTwo : Issue)
    (dryrun : bool) : M B bool :=
  let issueStatus := status_name issueLevelTwo in
  '(newStatus, didStatusChanged) ←
    (if decide (upper issueStatus ∈ MODIFIABLE_STATUS) then
       updateStatusIfNeeded_rules jira issueLevelTwo dryrun STATUS_RULES
     else mret (issueStatus, false));
  log INFO (StatusChangeResult (key issueLevelTwo) issueStatus newStatus
                               didStatusChanged);;
  mret (bool_decide (issueStatus ≠ newStatus)).

(** ** The loops of [main] *)

Definition dquote : string := String (ascii_of_N 34) EmptyString.

(** The query of line 189. *)
Definition jql (projectId : string) : string :=
  " project = " +:+ dquote +:+ projectId +:+ dquote
    +:+ "  AND SPRINT in openSprints() and sprint not in futureSprints() ".

(** Lines 197-201, the loop over the issues of a project, from the
    counters [possibleChanges] and [performedChanges] so far. *)
Fixpoint main_issues (jira : JIRA B) (dryrun : bool) (issues_in_project : list Issue)
    (possibleChanges performedChanges : nat) : M B (nat * nat) :=
  match issues_in_project with
  | [] => mret (possibleChanges, performedChanges)
  | issue :: rest =>
      let possibleChanges := possibleChanges + 1 in
      log DEBUG (PerformingVerification (key issue) (issuetype_name issue));;
      changed ← updateStatusIfNeeded jira issue dryrun;
      let performedChanges :=
        if changed : bool then performedChanges + 1 else performedChanges in
      main_issues jira dryrun rest possibleChanges performedChanges
  end.

(** Lines 185-202, the loop over the projects. *)
Fixpoint main_projects (jira : JIRA B) (dryrun : bool) (projectIDs : list string)
    : M B () :=
  match projectIDs with
  | [] => mret ()
  | projectId :: rest =>
      log DEBUG (StartProject projectId);;
      found ← try_except
                (issues_in_project ← search_issues jira (jql projectId) 1000;
                 mret (Some issues_in_project))
                (λ e, log ERROR (QueryError e);; mret None);
      match found with
      | None => main_projects jira dryrun rest
      | Some issues_in_project =>
          '(possibleChanges, performedChanges) ←
            main_issues jira dryrun issues_in_project 0 0;
          log INFO (EndOfOperations possibleChanges performedChanges);;
          main_projects jira dryrun rest
      end
  end.

(** [main], from the parsed [args.dryrun], the project codes read from
    [config/config.yaml] and the client [initJira] returns.  With no project
    code, building the message of line 178 raises [NameError]. *)
Definition main (jira : JIRA B) (dryrun : bool) (projectIDs : list string) : M B () :=
  (if decide (length projectIDs = 0) then raise (NameError "filePath") else mret ());;
  log INFO (DryrunMode dryrun);;
  main_projects jira dryrun projectIDs.

End Engine.

(** ** The configuration (lines 141-160) *)

(** A value of the mapping [yaml.full_load] returns for the file: a string,
    or anything else (nothing, a number, a list, a mapping). *)
Inductive yaml :=
| yaml_str (s : string)
| yaml_other.

(** [s.split(' ')]: the pieces of [s] between its spaces, the empty ones
    included. *)
Fixpoint split_space (s : string) : list string :=
  match s with
  | EmptyString => [EmptyString]
  | String c rest =>
      if decide (c = " "%char) then EmptyString :: split_space rest
      else match split_space rest with
           | [] => [String c EmptyString]
           | piece :: pieces => String c piece :: pieces
           end
  end.

(** [getProjectIDs], from the mapping loaded from the file, given as its
    [items()] in order.  [None] stands for the [AttributeError] of
    [projectsIDs.split] on a value that is no string. *)
Fixpoint getProjectIDs (documents : list (string * yaml)) : option (list string) :=
  match documents with
  | [] => Some []
  | (key, projectsIDs) :: rest =>
      if decide (key = YAML_PROJECT_KEYWORD) then
        match projectsIDs with
        | yaml_str s => Some (split_space s)
        | yaml_other => None
        end
      else getProjectIDs rest
  end.

(** ** Notions the properties are stated with *)

(** The set S of the uppercased statuses of an issue's subtasks. *)
Definition subtaskStatuses `{Upper} (issue : Issue) : gset string :=
  list_to_set (upper ∘ subtask_status_name <$> subtasks issue).

(** A policy over a set of subtask statuses and an accepted set: [all] asks
    that every element of S is in A, [at_least_one] that S and A meet. *)
Definition isSatisfied (S : gset string) (rulePolicy : string) (A : gset string) : bool :=
  if decide (rulePolicy = RULE_POLICY_ALL) then bool_decide (S ⊆ A)
  else if decide (rulePolicy = RULE_POLICY_AT_LEAST_ONE) then bool_decide (S ∩ A ≠ ∅)
  else false.

Definition satisfies `{Upper} (issue : Issue) (rule : Rule) : bool :=
  isSatisfied (subtaskStatuses issue) rule.2.1 rule.2.2.

(** The target of the first rule of the table that the subtasks satisfy. *)
Definition matchedTarget `{Upper} (issue : Issue) : option string :=
  fst <$> find (satisfies issue) STATUS_RULES.

(** The run, some events later, the server left alone. *)
Definition after {B} (r : Run B) (new : list event) : Run B :=
  mkRun (backend r) (trace r ++ new).

(** The transition calls among some events, as [(issueKey, status)]. *)
Fixpoint transition_calls (events : list event) : list (string * string) :=
  match events with
  | [] => []
  | transition_issue_call issueKey status :: rest =>
      (issueKey, status) :: transition_calls rest
  | _ :: rest => transition_calls rest
  end.

(** The keys of the issues the loop of [main] took up, from its debug
    records of line 199. *)
Fixpoint examined (events : list event) : list string :=
  match events with
  | [] => []
  | Log _ (PerformingVerification issueKey _) :: rest => issueKey :: examined rest
  | _ :: rest => examined rest
  end.

(** How often a key occurs in a list of keys. *)
Definition occurrences (k : string) (keys : list string) : nat :=
  length (filter (λ k', k' = k) keys).

(** Whether the script finds a change needed for an issue: its status is
    modifiable, a rule is satisfied, and the rule's target is another string
    than the status. *)
Definition changeNeeded `{Upper} (issue : Issue) : bool :=
  match (if decide (upper (status_name issue) ∈ MODIFIABLE_STATUS)
         then matchedTarget issue else None) with
  | None => false
  | Some newStatus => bool_decide (status_name issue ≠ newStatus)
  end.

(** The events one call of [updateStatusIfNeeded] adds to the trace: its log
    record alone, a transition call and the log record, or, when the server
    raised, the transition call alone. *)
Inductive decided (issue : Issue) : list event → Prop :=
| decided_logged (newStatus : string) (didStatusChanged : bool) :
    decided issue
      [Log INFO (StatusChangeResult (key issue) (status_name issue) newStatus
                                    didStatusChanged)]
| decided_sent (newStatus : string) :
    decided issue
      [transition_issue_call (key issue) newStatus;
       Log INFO (StatusChangeResult (key issue) (status_name issue) newStatus true)]
| decided_raised (newStatus : string) :
    decided issue [transition_issue_call (key issue) newStatus].

(** The events the loop over the issues of a project adds for the issues it
    took up, in order. *)
Inductive issues_trace : list Issue → list event → Prop :=
| issues_trace_nil : issues_trace [] []
| issues_trace_cons (issue : Issue) (rest : list Issue) (new more : list event) :
    decided issue new →
    issues_trace rest more →
    issues_trace (issue :: rest)
      (Log DEBUG (PerformingVerification (key issue) (issuetype_name issue))
         :: new ++ more).

(** No key has more transition calls than records of being taken up. *)
Definition one_call_per_examination (events : list event) : Prop :=
  ∀ k : string,
    (occurrences k ((transition_calls events).*1) ≤ occurrences k (examined events))%nat.

(** The searches ask for 1000 results, and no project's summary counts more
    than 1000 issues or more changes than issues. *)
Definition capped (events : list event) : Prop :=
  (∀ jql_str maxResults,
     search_issues_call jql_str maxResults ∈ events → maxResults = 1000)
  ∧ (∀ lvl possibleChanges performedChanges,
       Log lvl (EndOfOperations possibleChanges performedChanges) ∈ events →
       (possibleChanges ≤ 1000 ∧ performedChanges ≤ possibleChanges)%nat).

(** [' '.join(pieces)]. *)
Fixpoint join_space (pieces : list string) : string :=
  match pieces with
  | [] => EmptyString
  | [piece] => piece
  | piece :: rest => piece +:+ " " +:+ join_space rest
  end.

(** The number of spaces of a string. *)
Fixpoint count_space (s : string) : nat :=
  match s with
  | EmptyString => 0
  | String c rest => (if decide (c = " "%char) then 1 else 0) + count_space rest
  end.

(** The searches among some events, as [(jql_str, maxResults)]. *)
Fixpoint search_calls (events : list event) : list (string * nat) :=
  match events with
  | [] => []
  | search_issues_call jql_str maxResults :: rest =>
      (jql_str, maxResults) :: search_calls rest
  | _ :: rest => search_calls rest
  end.

(** The issue as the server has it once its status is [status]. *)
Definition with_status (issue : Issue) (status : string) : Issue :=
  mkIssue (key issue) status (issuetype_name issue) (subtasks issue).

(** The transition the script owes an issue: to the target of the first
    rule its subtasks satisfy, when its status is modifiable and is another
    string than that target. *)
Definition owed_transition `{Upper} (issue : Issue) : option (string * string) :=
  match (if decide (upper (status_name issue) ∈ MODIFIABLE_STATUS)
         then matchedTarget issue else None) with
  | None => None
  | Some newStatus =>
      if bool_decide (newStatus ≠ status_name issue)
      then Some (key issue, newStatus) else None
  end.

(** ** Servers and issues to run the script on *)

(** A server without state: transitions of the issues in [refused] raise,
    the others succeed; a query finds what [found] lists for it. *)
Definition server (refused : list string) (found : string → list Issue) : JIRA () :=
  mkJIRA
    (λ issueKey status b,
       if bool_decide (issueKey ∈ refused)
       then (Raise (JIRAError "transition refused"), b)
       else (Return (), b))
    (λ jql_str b, (Return (found jql_str), b)).

Definition start : Run () := mkRun () [].

Definition story (issueKey issueStatus : string) (subtaskStatus : list string) : Issue :=
  mkIssue issueKey issueStatus "Story" (mkSubtask <$> subtaskStatus).

(** A server that accepts every transition and raises on every search. *)
Definition unreachable : JIRA () :=
  mkJIRA (λ issueKey status b, (Return (), b))
         (λ jql_str b, (Raise (JIRAError "search failed"), b)).

(** The stories P-0, P-1, ... of a sprint, [n] of them, each to be moved to
    DONE. *)
Definition backlog (n : nat) : list Issue :=
  (λ i : nat, story ("P-" +:+ pretty i) "TO DO" ["DONE"]) <$> seq 0 n.

(** ** The policies as set conditions *)

Section Policies.
Context {up : Upper}.

Lemma isRuleApplicable_all_subseteq (A : gset string) (subs : list Subtask) :
  isRuleApplicable_all A subs
  = bool_decide (list_to_set (C := gset string)
                   (upper ∘ subtask_status_name <$> subs) ⊆ A).
Proof.
  induction subs as [|subt rest IH]; simpl.
  - symmetry. apply bool_decide_eq_true. set_solver.
  - destruct (decide (upper (subtask_status_name subt) ∉ A)) as [Hout|Hin].
    + symmetry. apply bool_decide_eq_false. set_solver.
    + rewrite IH. apply bool_decide_ext.
      apply dec_stable in Hin. set_solver.
Qed.

Lemma isRuleApplicable_at_least_one_meets (A : gset string) (subs : list Subtask) :
  isRuleApplicable_at_least_one A subs
  = bool_decide (list_to_set (C := gset string)
                   (upper ∘ subtask_status_name <$> subs) ∩ A ≠ ∅).
Proof.
  induction subs as [|subt rest IH]; simpl.
  - symmetry. apply bool_decide_eq_false. set_solver.
  - destruct (decide (upper (subtask_status_name subt) ∈ A)) as [Hin|Hout].
    + symmetry. apply bool_decide_eq_true. set_solver.
    + rewrite IH. apply bool_decide_ext. set_solver.
Qed.

(** [isRuleApplicable] computes [isSatisfied]; it touches the run only to
    warn about a policy it does not know. *)
Lemma isRuleApplicable_isSatisfied {B} (issue : Issue) (rulePolicy : string)
    (A : gset string) (r : Run B) :
  isRuleApplicable issue rulePolicy A r
  = (Return (isSatisfied (subtaskStatuses issue) rulePolicy A),
     if bool_decide (rulePolicy ∈ SUPPORTED_RULE_POLICY) then r
     else after r [Log WARNING (NotSupportedRulePolicy rulePolicy)]).
Proof.
  unfold isRuleApplicable, isSatisfied, subtaskStatuses.
  destruct (decide (rulePolicy = RULE_POLICY_ALL)) as [->|Hall].
  { by rewrite isRuleApplicable_all_subseteq. }
  destruct (decide (rulePolicy = RULE_POLICY_AT_LEAST_ONE)) as [->|Hone].
  { by rewrite isRuleApplicable_at_least_one_meets. }
  rewrite bool_decide_eq_false_2; [done|].
  unfold SUPPORTED_RULE_POLICY. set_solver.
Qed.

End Policies.

(** ** What [updateStatusIfNeeded] does, case by case *)

(** Runs the plain steps of the run monad. *)
Ltac run_simpl :=
  unfold mbind, M_bind, mret, M_ret, log, emit, raise, answer, after; simpl.

Section Decider.
Context {up : Upper} {B : Type}.
Implicit Types (jira : JIRA B) (issue : Issue) (r : Run B).

Lemma after_after r (new more : list event) :
  after (after r new) more = after r (new ++ more).
Proof. unfold after; simpl. by rewrite <- app_assoc. Qed.

Lemma after_nil r : after r [] = r.
Proof. destruct r. unfold after; simpl. by rewrite app_nil_r. Qed.

Lemma transition_issue_run jira (issueKey status : string) r :
  transition_issue jira issueKey status r
  = let '(res, b) := transition jira issueKey status (backend r) in
    (res, mkRun b (trace r ++ [transition_issue_call issueKey status])).
Proof. reflexivity. Qed.

(** The rules of the table all carry a policy the script knows. *)
Lemma STATUS_RULES_supported :
  Forall (λ rule : Rule, rule.2.1 ∈ SUPPORTED_RULE_POLICY) STATUS_RULES.
Proof. unfold STATUS_RULES, SUPPORTED_RULE_POLICY. repeat constructor; set_solver. Qed.

(** The loop over rules of known policies: it leaves with the first rule
    the subtasks satisfy, and calls the server for it when its target is
    another string than the issue's status and the run is no dry run. *)
Lemma updateStatusIfNeeded_rules_find jira issue (dryrun : bool) (rules : list Rule) r :
  Forall (λ rule : Rule, rule.2.1 ∈ SUPPORTED_RULE_POLICY) rules →
  updateStatusIfNeeded_rules jira issue dryrun rules r
  = match find (satisfies issue) rules with
    | None => (Return (status_name issue, false), r)
    | Some (status, _) =>
        if bool_decide (status ≠ status_name issue) && negb dryrun then
          (transition_issue jira (key issue) status ;; mret (status, true)) r
        else (Return (status, false), r)
    end.
Proof.
  induction 1 as [|[status [rulePolicy possibleStatus]] rest Hsup _ IH]; [done|].
  simpl in Hsup. cbn [updateStatusIfNeeded_rules find].
  unfold mbind at 1, M_bind at 1.
  rewrite isRuleApplicable_isSatisfied, (bool_decide_eq_true_2 _ Hsup).
  unfold satisfies at 1; simpl.
  destruct (isSatisfied _ _ _); [by destruct (_ && _)|apply IH].
Qed.

(** [updateStatusIfNeeded], result and run, in all its cases. *)
Lemma updateStatusIfNeeded_run jira issue (dryrun : bool) r :
  updateStatusIfNeeded jira issue dryrun r
  = let issueStatus := status_name issue in
    match (if decide (upper issueStatus ∈ MODIFIABLE_STATUS)
           then matchedTarget issue else None) with
    | None =>
        (Return false,
         after r [Log INFO (StatusChangeResult (key issue) issueStatus issueStatus false)])
    | Some newStatus =>
        if bool_decide (newStatus ≠ issueStatus) && negb dryrun then
          match transition jira (key issue) newStatus (backend r) with
          | (Return _, b) =>
              (Return true,
               mkRun b (trace r ++
                 [transition_issue_call (key issue) newStatus;
                  Log INFO (StatusChangeResult (key issue) issueStatus newStatus true)]))
          | (Raise e, b) =>
              (Raise e,
               mkRun b (trace r ++ [transition_issue_call (key issue) newStatus]))
          end
        else
          (Return (bool_decide (issueStatus ≠ newStatus)),
           after r [Log INFO (StatusChangeResult (key issue) issueStatus newStatus false)])
    end.
Proof.
  assert (Hsame : ∀ s : string, bool_decide (s ≠ s) = false).
  { intros s. by apply bool_decide_eq_false_2; intros Hne; apply Hne. }
  unfold updateStatusIfNeeded, matchedTarget. cbv zeta.
  destruct (decide (upper (status_name issue) ∈ MODIFIABLE_STATUS)) as [Hmod|Hmod].
  2:{ run_simpl. by rewrite Hsame. }
  unfold mbind at 1, M_bind at 1.
  rewrite (updateStatusIfNeeded_rules_find _ _ _ _ _ STATUS_RULES_supported).
  destruct (find (satisfies issue) STATUS_RULES) as [[newStatus rule]|]; simpl.
  2:{ run_simpl. by rewrite Hsame. }
  destruct (bool_decide (newStatus ≠ status_name issue)) eqn:Hdiff; simpl.
  - apply bool_decide_eq_true in Hdiff.
    destruct dryrun; simpl.
    + run_simpl. by rewrite bool_decide_eq_true_2.
    + unfold mbind at 1, M_bind at 1, mbind at 1, M_bind at 1.
      rewrite transition_issue_run.
      destruct (transition jira (key issue) newStatus (backend r)) as [[[]|e] b];
        run_simpl; [|done].
      rewrite bool_decide_eq_true_2 by done. by rewrite <- app_assoc.
  - apply bool_decide_eq_false in Hdiff. apply dec_stable in Hdiff. subst newStatus.
    run_simpl. by rewrite Hsame.
Qed.

End Decider.

(** ** The aggregation policies *)

(** C2.  Under the [all] policy [isRuleApplicable] returns, without touching
    the run, whether every element of the set S of the subtasks' uppercased
    statuses is in the accepted set A: it is true iff S ⊆ A, iff every
    subtask's status is in A, and true in particular for an issue without
    subtasks, whatever A is. *)
Theorem all_policy_semantics {up : Upper} {B : Type} (issue : Issue) (A : gset string)
    (r : Run B) :
  ∃ b : bool,
    isRuleApplicable issue RULE_POLICY_ALL A r = (Return b, r)
    ∧ (b = true ↔ ∀ s, s ∈ subtaskStatuses issue → s ∈ A)
    ∧ (b = true ↔ Forall (λ subt, upper (subtask_status_name subt) ∈ A) (subtasks issue))
    ∧ (subtaskStatuses issue = ∅ → b = true)
    ∧ (subtasks issue = [] → b = true).
Proof.
  exists (bool_decide (subtaskStatuses issue ⊆ A)).
  assert (Hall : subtaskStatuses issue ⊆ A
                 ↔ Forall (λ subt, upper (subtask_status_name subt) ∈ A) (subtasks issue)).
  { unfold subtaskStatuses. rewrite Forall_forall. split.
    - intros Hsub subt Hin. apply Hsub, elem_of_list_to_set, list_elem_of_fmap.
      by exists subt.
    - intros Hall s [subt [-> Hin]]%elem_of_list_to_set%list_elem_of_fmap.
      by apply Hall. }
  split; [|split; [|split; [|split]]].
  - rewrite isRuleApplicable_isSatisfied. reflexivity.
  - by rewrite bool_decide_eq_true.
  - by rewrite bool_decide_eq_true.
  - intros Hempty. apply bool_decide_eq_true. rewrite Hempty. set_solver.
  - intros Hnil. apply bool_decide_eq_true, Hall. rewrite Hnil. constructor.
Qed.

(** C3.  Under the [at_least_one] policy [isRuleApplicable] returns, without
    touching the run, whether some element of S is in A: it is true iff the
    intersection of S and A is not empty, iff some subtask's status is in A,
    and false for an issue without subtasks. *)
Theorem at_least_one_policy_semantics {up : Upper} {B : Type} (issue : Issue)
    (A : gset string) (r : Run B) :
  ∃ b : bool,
    isRuleApplicable issue RULE_POLICY_AT_LEAST_ONE A r = (Return b, r)
    ∧ (b = true ↔ subtaskStatuses issue ∩ A ≠ ∅)
    ∧ (b = true ↔ ∃ s, s ∈ subtaskStatuses issue ∧ s ∈ A)
    ∧ (b = true ↔ Exists (λ subt, upper (subtask_status_name subt) ∈ A) (subtasks issue))
    ∧ (subtaskStatuses issue = ∅ → b = false)
    ∧ (subtasks issue = [] → b = false).
Proof.
  exists (bool_decide (subtaskStatuses issue ∩ A ≠ ∅)).
  assert (Hmeet : subtaskStatuses issue ∩ A ≠ ∅
                  ↔ ∃ s, s ∈ subtaskStatuses issue ∧ s ∈ A).
  { split.
    - intros Hne. apply set_choose_L in Hne as [s Hs]. exists s. set_solver.
    - intros [s Hs]. set_solver. }
  assert (Hone : (∃ s, s ∈ subtaskStatuses issue ∧ s ∈ A)
                 ↔ Exists (λ subt, upper (subtask_status_name subt) ∈ A) (subtasks issue)).
  { unfold subtaskStatuses. rewrite Exists_exists. split.
    - intros [s [[subt [-> Hin]]%elem_of_list_to_set%list_elem_of_fmap HA]].
      by exists subt.
    - intros [subt [Hin HA]]. exists (upper (subtask_status_name subt)).
      split; [|done]. apply elem_of_list_to_set, list_elem_of_fmap. by exists subt. }
  split; [|split; [|split; [|split; [|split]]]].
  - rewrite isRuleApplicable_isSatisfied. reflexivity.
  - by rewrite bool_decide_eq_true.
  - by rewrite bool_decide_eq_true.
  - rewrite bool_decide_eq_true. by rewrite Hmeet.
  - intros Hempty. apply bool_decide_eq_false. rewrite Hempty. set_solver.
  - intros Hnil. apply bool_decide_eq_false. rewrite Hmeet, Hone, Hnil.
    by intros ?%Exists_nil.
Qed.

(** ** The decision for one issue *)

Section Decision.
Context {up : Upper} {B : Type}.
Implicit Types (jira : JIRA B) (issue : Issue) (r : Run B).

(** One turn of the loop over the issues of a project. *)
Lemma main_issues_cons jira (dryrun : bool) issue (rest : list Issue)
    (possibleChanges performedChanges : nat) r :
  main_issues jira dryrun (issue :: rest) possibleChanges performedChanges r
  = match updateStatusIfNeeded jira issue dryrun
            (after r [Log DEBUG (PerformingVerification (key issue) (issuetype_name issue))])
    with
    | (Return changed, r') =>
        main_issues jira dryrun rest (possibleChanges + 1)
          (if changed then performedChanges + 1 else performedChanges) r'
    | (Raise e, r') => (Raise e, r')
    end.
Proof. reflexivity. Qed.

(** A status outside the supported ones is outside the modifiable ones. *)
Lemma not_supported_not_modifiable (s : string) :
  s ∉ SUPPORTED_STATUS → s ∉ MODIFIABLE_STATUS.
Proof. unfold SUPPORTED_STATUS. rewrite elem_of_app. tauto. Qed.

(** A subtask with a status no rule of the table accepts, and no subtask
    blocked or in progress: no rule of the table is satisfied. *)
Lemma matchedTarget_unrecognized issue :
  (∃ subt, subt ∈ subtasks issue
           ∧ upper (subtask_status_name subt) ∉ SUPPORTED_STATUS) →
  BLOCKED ∉ subtaskStatuses issue →
  IN_PROGRESS ∉ subtaskStatuses issue →
  matchedTarget issue = None.
Proof.
  intros [subt [Hin Hout]] Hblocked Hprogress.
  assert (HS : upper (subtask_status_name subt) ∈ subtaskStatuses issue).
  { apply elem_of_list_to_set, list_elem_of_fmap. by exists subt. }
  assert (Hdone : ¬ subtaskStatuses issue ⊆ ({[DONE; ACCEPTED]} : gset string)).
  { intros Hsub. apply Hout. specialize (Hsub _ HS).
    unfold SUPPORTED_STATUS, MODIFIABLE_STATUS, NON_MODIFIABLE_STATUS. set_solver. }
  assert (Htodo : ¬ subtaskStatuses issue ⊆ ({[TO_DO]} : gset string)).
  { intros Hsub. apply Hout. specialize (Hsub _ HS).
    unfold SUPPORTED_STATUS, MODIFIABLE_STATUS, NON_MODIFIABLE_STATUS. set_solver. }
  unfold matchedTarget, STATUS_RULES, satisfies, isSatisfied; simpl.
  rewrite !bool_decide_eq_false_2; [done|set_solver..|done|done].
Qed.

End Decision.

(** ** Reading traces *)

Lemma transition_calls_app (events more : list event) :
  transition_calls (events ++ more) = transition_calls events ++ transition_calls more.
Proof.
  induction events as [|[| |] events IH]; simpl; [done| |done..]. by rewrite IH.
Qed.

Lemma examined_app (events more : list event) :
  examined (events ++ more) = examined events ++ examined more.
Proof.
  induction events as [|[| |lvl []] events IH]; simpl; try done. by rewrite IH.
Qed.

Lemma occurrences_app (k : string) (keys more : list string) :
  occurrences k (keys ++ more) = occurrences k keys + occurrences k more.
Proof. unfold occurrences. by rewrite filter_app, length_app. Qed.

(** ** Protected and unrecognized statuses *)

(** C5.  An issue whose uppercased status is not in [MODIFIABLE_STATUS]
    (ACCEPTED, say) is left alone: whatever its subtasks, the rules and the
    dry-run flag, [updateStatusIfNeeded] returns False, writes its one log
    record with the old status as the new one, makes no transition call and
    leaves the server as it was. *)
Theorem protected_status_guarantee {up : Upper} {B : Type} (jira : JIRA B)
    (issue : Issue) (dryrun : bool) (r : Run B) :
  upper (status_name issue) ∉ MODIFIABLE_STATUS →
  updateStatusIfNeeded jira issue dryrun r
  = (Return false,
     after r [Log INFO (StatusChangeResult (key issue) (status_name issue)
                                           (status_name issue) false)])
  ∧ transition_calls (trace (updateStatusIfNeeded jira issue dryrun r).2)
    = transition_calls (trace r)
  ∧ backend (updateStatusIfNeeded jira issue dryrun r).2 = backend r.
Proof.
  intros Hmod. rewrite updateStatusIfNeeded_run. cbv zeta.
  destruct (decide (upper (status_name issue) ∈ MODIFIABLE_STATUS)); [done|].
  split; [done|]. simpl. by rewrite transition_calls_app, app_nil_r.
Qed.

(** An ACCEPTED story with a blocked subtask, outside dry-run. *)
Lemma protected_status_guarantee_witness :
  (upper (status_name (story "P-9" "Accepted" ["Blocked"; "Done"])) ∉ MODIFIABLE_STATUS)
  ∧ updateStatusIfNeeded (server [] (λ _, [])) (story "P-9" "Accepted" ["Blocked"; "Done"])
      false start
    = (Return false,
       mkRun () [Log INFO (StatusChangeResult "P-9" "Accepted" "Accepted" false)]).
Proof.
  assert (Hmod : upper (status_name (story "P-9" "Accepted" ["Blocked"; "Done"]))
                 ∉ MODIFIABLE_STATUS).
  { apply (bool_decide_unpack _). vm_compute. exact I. }
  split; [exact Hmod|].
  exact (proj1 (protected_status_guarantee (server [] (λ _, []))
                  (story "P-9" "Accepted" ["Blocked"; "Done"]) false start Hmod)).
Defined.

(** C7, as the script has it.  An issue is skipped (False returned, the one
    log record with the old status as the new one, no transition call, no
    exception) when its own uppercased status is outside [SUPPORTED_STATUS],
    and also when one of its subtasks has a status outside [SUPPORTED_STATUS]
    while none of its subtasks is BLOCKED or IN PROGRESS.  The loop of [main]
    still counts such an issue in [possibleChanges] and goes on with the
    next one. *)
Theorem unrecognized_status_skipped {up : Upper} {B : Type} (jira : JIRA B)
    (issue : Issue) (dryrun : bool) (rest : list Issue)
    (possibleChanges performedChanges : nat) (r : Run B) :
  (upper (status_name issue) ∉ SUPPORTED_STATUS)
  ∨ ((∃ subt, subt ∈ subtasks issue
              ∧ upper (subtask_status_name subt) ∉ SUPPORTED_STATUS)
     ∧ (BLOCKED ∉ subtaskStatuses issue)
     ∧ (IN_PROGRESS ∉ subtaskStatuses issue)) →
  (∀ r0 : Run B,
     updateStatusIfNeeded jira issue dryrun r0
     = (Return false,
        after r0 [Log INFO (StatusChangeResult (key issue) (status_name issue)
                                               (status_name issue) false)]))
  ∧ main_issues jira dryrun (issue :: rest) possibleChanges performedChanges r
    = main_issues jira dryrun rest (possibleChanges + 1) performedChanges
        (after r [Log DEBUG (PerformingVerification (key issue) (issuetype_name issue));
                  Log INFO (StatusChangeResult (key issue) (status_name issue)
                                               (status_name issue) false)]).
Proof.
  intros Hskip.
  assert (Hupd : ∀ r0 : Run B,
     updateStatusIfNeeded jira issue dryrun r0
     = (Return false,
        after r0 [Log INFO (StatusChangeResult (key issue) (status_name issue)
                                               (status_name issue) false)])).
  { intros r0. rewrite updateStatusIfNeeded_run. cbv zeta.
    destruct Hskip as [Hown|(Hsub & Hblocked & Hprogress)].
    - apply not_supported_not_modifiable in Hown.
      by destruct (decide (upper (status_name issue) ∈ MODIFIABLE_STATUS)).
    - rewrite (matchedTarget_unrecognized issue Hsub Hblocked Hprogress).
      by destruct (decide (upper (status_name issue) ∈ MODIFIABLE_STATUS)). }
  split; [exact Hupd|].
  by rewrite main_issues_cons, Hupd, after_after.
Qed.

(** A story with a "Cancelled" subtask next to a "To Do" one. *)
Lemma unrecognized_status_skipped_witness :
  ((∃ subt, subt ∈ subtasks (story "P-3" "To Do" ["To Do"; "Cancelled"])
            ∧ upper (subtask_status_name subt) ∉ SUPPORTED_STATUS)
   ∧ (BLOCKED ∉ subtaskStatuses (story "P-3" "To Do" ["To Do"; "Cancelled"]))
   ∧ (IN_PROGRESS ∉ subtaskStatuses (story "P-3" "To Do" ["To Do"; "Cancelled"])))
  ∧ updateStatusIfNeeded (server [] (λ _, [])) (story "P-3" "To Do" ["To Do"; "Cancelled"])
      false start
    = (Return false, mkRun () [Log INFO (StatusChangeResult "P-3" "To Do" "To Do" false)]).
Proof.
  assert (Hskip :
    (∃ subt, subt ∈ subtasks (story "P-3" "To Do" ["To Do"; "Cancelled"])
             ∧ upper (subtask_status_name subt) ∉ SUPPORTED_STATUS)
    ∧ (BLOCKED ∉ subtaskStatuses (story "P-3" "To Do" ["To Do"; "Cancelled"]))
    ∧ (IN_PROGRESS ∉ subtaskStatuses (story "P-3" "To Do" ["To Do"; "Cancelled"]))).
  { split; [|split].
    - exists (mkSubtask "Cancelled"). split.
      + apply (bool_decide_unpack _). vm_compute. exact I.
      + apply (bool_decide_unpack _). vm_compute. exact I.
    - apply (bool_decide_unpack _). vm_compute. exact I.
    - apply (bool_decide_unpack _). vm_compute. exact I. }
  split; [exact Hskip|].
  exact (proj1 (unrecognized_status_skipped (server [] (λ _, []))
                  (story "P-3" "To Do" ["To Do"; "Cancelled"]) false [] 0 0 start
                  (or_intror Hskip)) start).
Defined.

(** C7 as stated fails: a story whose subtasks are "In Progress" and
    "Cancelled" carries a status outside the vocabulary, and the script
    still moves it to IN PROGRESS. *)
Lemma unrecognized_subtask_status_not_skipped :
  (∃ subt, subt ∈ subtasks (story "P-1" "To Do" ["In Progress"; "Cancelled"])
           ∧ upper (subtask_status_name subt) ∉ SUPPORTED_STATUS)
  ∧ updateStatusIfNeeded (server [] (λ _, []))
      (story "P-1" "To Do" ["In Progress"; "Cancelled"]) false start
    = (Return true,
       mkRun () [transition_issue_call "P-1" "IN PROGRESS";
                 Log INFO (StatusChangeResult "P-1" "To Do" "IN PROGRESS" true)]).
Proof.
  split; [|by vm_compute].
  exists (mkSubtask "Cancelled"). split.
  - apply (bool_decide_unpack _). vm_compute. exact I.
  - apply (bool_decide_unpack _). vm_compute. exact I.
Qed.

(** ** The comparison with the current status *)

(** A matched target that is the very string of the current status is not
    sent, dry run or not. *)
Lemma same_string_is_noop {up : Upper} {B : Type} (jira : JIRA B) (issue : Issue)
    (dryrun : bool) (r : Run B) :
  upper (status_name issue) ∈ MODIFIABLE_STATUS →
  matchedTarget issue = Some (status_name issue) →
  updateStatusIfNeeded jira issue dryrun r
  = (Return false,
     after r [Log INFO (StatusChangeResult (key issue) (status_name issue)
                                           (status_name issue) false)]).
Proof.
  intros Hmod Htarget. rewrite updateStatusIfNeeded_run. cbv zeta. rewrite Htarget.
  destruct (decide (upper (status_name issue) ∈ MODIFIABLE_STATUS)) as [_|Hno];
    [|done].
  rewrite !bool_decide_eq_false_2; [done|by intros Hne; apply Hne..].
Qed.

(** C1, on the script.  A story in status "Done" whose only subtask is
    "Done" is modifiable ("Done".upper() is in [MODIFIABLE_STATUS]), the rule
    it matches has the target DONE, equal to its status up to case; line 89
    compares the two strings as they are, so outside dry-run the transition
    is sent, and the function reports a change. *)
Theorem noop_comparison_is_case_sensitive :
  (upper (status_name (story "P-1" "Done" ["Done"])) ∈ MODIFIABLE_STATUS)
  ∧ matchedTarget (story "P-1" "Done" ["Done"]) = Some DONE
  ∧ upper (status_name (story "P-1" "Done" ["Done"])) = upper DONE
  ∧ updateStatusIfNeeded (server [] (λ _, [])) (story "P-1" "Done" ["Done"]) false start
    = (Return true,
       mkRun () [transition_issue_call "P-1" "DONE";
                 Log INFO (StatusChangeResult "P-1" "Done" "DONE" true)])
  ∧ updateStatusIfNeeded (server [] (λ _, [])) (story "P-1" "Done" ["Done"]) true start
    = (Return true,
       mkRun () [Log INFO (StatusChangeResult "P-1" "Done" "DONE" false)]).
Proof.
  split; [|split; [|split; [|split]]]; try by vm_compute.
  apply (bool_decide_unpack _). vm_compute. exact I.
Qed.

(** ** Priority of the rules *)

(** [find] stops at the first position where the test holds. *)
Lemma find_first_at {A : Type} (f : A → bool) (l : list A) (i : nat) (x : A) :
  l !! i = Some x → f x = true → Forall (λ y, f y = false) (take i l) →
  find f l = Some x.
Proof.
  revert i. induction l as [|y l IH]; intros [|i] Hi Hx Hbefore; simplify_eq/=.
  - by rewrite Hx.
  - apply Forall_cons in Hbefore as [-> Hbefore]. by apply (IH i).
Qed.

(** C4.  For an issue of modifiable status, let rule [i] of [STATUS_RULES],
    with target [target], be applicable while no rule before it is.  Then the
    script does for the issue what it would do with that rule alone: the new
    status is [target]; it is sent to the server when it is another string
    than the current status and the run is no dry run, and logged either way.
    The table is, in this order: all subtasks DONE or ACCEPTED → DONE; all
    subtasks TO DO → TO DO; a subtask BLOCKED → BLOCKED; a subtask IN
    PROGRESS → IN PROGRESS. *)
Theorem first_match_wins {up : Upper} {B : Type} (jira : JIRA B) (issue : Issue)
    (dryrun : bool) (r : Run B) (i : nat) (target rulePolicy : string)
    (possibleStatus : gset string) :
  upper (status_name issue) ∈ MODIFIABLE_STATUS →
  STATUS_RULES !! i = Some (target, (rulePolicy, possibleStatus)) →
  (isRuleApplicable issue rulePolicy possibleStatus r).1 = Return true →
  Forall (λ rule : Rule, (isRuleApplicable issue rule.2.1 rule.2.2 r).1 = Return false)
         (take i STATUS_RULES) →
  STATUS_RULES
  = [ (DONE, (RULE_POLICY_ALL, {[ DONE; ACCEPTED ]}));
      (TO_DO, (RULE_POLICY_ALL, {[ TO_DO ]}));
      (BLOCKED, (RULE_POLICY_AT_LEAST_ONE, {[ BLOCKED ]}));
      (IN_PROGRESS, (RULE_POLICY_AT_LEAST_ONE, {[ IN_PROGRESS ]})) ]
  ∧ updateStatusIfNeeded_rules jira issue true STATUS_RULES r = (Return (target, false), r)
  ∧ updateStatusIfNeeded jira issue dryrun r
    = (if bool_decide (target ≠ status_name issue) && negb dryrun then
         transition_issue jira (key issue) target;;
         log INFO (StatusChangeResult (key issue) (status_name issue) target true);;
         mret true
       else
         log INFO (StatusChangeResult (key issue) (status_name issue) target false);;
         mret (bool_decide (status_name issue ≠ target))) r.
Proof.
  intros Hmod Hrule Happ Hbefore.
  assert (Hsat : ∀ rule : Rule, ∀ b : bool,
            (isRuleApplicable issue rule.2.1 rule.2.2 r).1 = Return b →
            satisfies issue rule = b).
  { intros rule b. rewrite isRuleApplicable_isSatisfied. simpl. by intros [= <-]. }
  assert (Hfind : find (satisfies issue) STATUS_RULES
                  = Some (target, (rulePolicy, possibleStatus))).
  { apply (find_first_at _ _ i); [done|by apply (Hsat _ true)|].
    eapply Forall_impl; [exact Hbefore|]. intros rule. apply Hsat. }
  split; [reflexivity|]. split.
  - rewrite (updateStatusIfNeeded_rules_find _ _ _ _ _ STATUS_RULES_supported), Hfind.
    by rewrite andb_false_r.
  - rewrite updateStatusIfNeeded_run. cbv zeta. unfold matchedTarget. rewrite Hfind.
    destruct (decide (upper (status_name issue) ∈ MODIFIABLE_STATUS)) as [_|Hno];
      [simpl|done].
    destruct (bool_decide (target ≠ status_name issue) && negb dryrun); [|done].
    unfold mbind at 1, M_bind at 1. rewrite transition_issue_run.
    destruct (transition jira (key issue) target (backend r)) as [[[]|e] b]; [|done].
    run_simpl. by rewrite <- app_assoc.
Qed.

(** A story with a blocked subtask and one in progress satisfies the third
    and the fourth rule; it is moved to BLOCKED. *)
Lemma first_match_wins_witness :
  (upper (status_name (story "P-7" "To Do" ["Blocked"; "In Progress"])) ∈ MODIFIABLE_STATUS)
  ∧ (isRuleApplicable (B := ()) (story "P-7" "To Do" ["Blocked"; "In Progress"])
       RULE_POLICY_AT_LEAST_ONE {[ IN_PROGRESS ]} start).1 = Return true
  ∧ updateStatusIfNeeded (server [] (λ _, []))
      (story "P-7" "To Do" ["Blocked"; "In Progress"]) false start
    = (Return true,
       mkRun () [transition_issue_call "P-7" "BLOCKED";
                 Log INFO (StatusChangeResult "P-7" "To Do" "BLOCKED" true)]).
Proof.
  split; [apply (bool_decide_unpack _); vm_compute; exact I|].
  split; [by vm_compute|].
  etrans.
  - refine (proj2 (proj2 (first_match_wins (server [] (λ _, []))
              (story "P-7" "To Do" ["Blocked"; "In Progress"]) false start
              2 BLOCKED RULE_POLICY_AT_LEAST_ONE {[ BLOCKED ]} _ _ _ _))).
    + apply (bool_decide_unpack _). vm_compute. exact I.
    + reflexivity.
    + by vm_compute.
    + repeat constructor; by vm_compute.
  - by vm_compute.
Defined.

(** ** The trace of a run *)

Lemma occurrences_cons (k k' : string) (keys : list string) :
  occurrences k (k' :: keys)
  = ((if decide (k' = k) then 1 else 0) + occurrences k keys)%nat.
Proof. unfold occurrences. rewrite filter_cons. by destruct (decide (k' = k)). Qed.

Lemma decided_examined (issue : Issue) (new : list event) :
  decided issue new → examined new = [].
Proof. by destruct 1. Qed.

Lemma decided_transition_calls (issue : Issue) (new : list event) :
  decided issue new →
  transition_calls new = []
  ∨ ∃ newStatus, transition_calls new = [(key issue, newStatus)].
Proof. destruct 1; eauto. Qed.

Lemma issues_trace_examined (taken : list Issue) (new : list event) :
  issues_trace taken new → examined new = key <$> taken.
Proof.
  induction 1 as [|issue rest new more Hnew _ IH]; [done|]. simpl.
  by rewrite examined_app, (decided_examined _ _ Hnew), IH.
Qed.

Lemma issues_trace_transition_calls (taken : list Issue) (new : list event) :
  issues_trace taken new →
  Forall (λ call : string * string, call.1 ∈ key <$> taken) (transition_calls new).
Proof.
  induction 1 as [|issue rest new more Hnew _ IH]; [constructor|]. simpl.
  rewrite transition_calls_app. apply Forall_app. split.
  - destruct (decided_transition_calls _ _ Hnew) as [->|[newStatus ->]];
      repeat constructor.
  - eapply Forall_impl; [exact IH|]. intros call Hcall. by right.
Qed.

Lemma one_call_per_examination_nil : one_call_per_examination [].
Proof. intros k. unfold occurrences. simpl. lia. Qed.

Lemma one_call_per_examination_app (events more : list event) :
  one_call_per_examination events → one_call_per_examination more →
  one_call_per_examination (events ++ more).
Proof.
  intros Hevents Hmore k. specialize (Hevents k). specialize (Hmore k).
  rewrite transition_calls_app, fmap_app, examined_app, !occurrences_app. lia.
Qed.

Lemma one_call_per_examination_quiet (e : event) :
  transition_calls [e] = [] → one_call_per_examination [e].
Proof. intros Hquiet k. rewrite Hquiet. unfold occurrences at 1. simpl. lia. Qed.

Lemma issues_trace_one_call (taken : list Issue) (new : list event) :
  issues_trace taken new → one_call_per_examination new.
Proof.
  induction 1 as [|issue rest new more Hnew _ IH]; [apply one_call_per_examination_nil|].
  intros k. specialize (IH k). simpl.
  rewrite transition_calls_app, fmap_app, examined_app, (decided_examined _ _ Hnew).
  rewrite occurrences_app, occurrences_cons. simpl.
  destruct (decided_transition_calls _ _ Hnew) as [->|[newStatus ->]]; simpl.
  - destruct (decide (key issue = k)); lia.
  - rewrite occurrences_cons. change (occurrences k []) with 0%nat.
    destruct (decide (key issue = k)); lia.
Qed.

Lemma issues_trace_capped (taken : list Issue) (new : list event) :
  issues_trace taken new → capped new.
Proof.
  intros Htrace.
  assert (Hkind : Forall (λ e, match e with
                               | search_issues_call _ _
                               | Log _ (EndOfOperations _ _) => False
                               | _ => True
                               end) new).
  { induction Htrace as [|issue rest new more Hnew _ IH]; [constructor|].
    constructor; [done|]. apply Forall_app. split; [|done].
    destruct Hnew; by repeat constructor. }
  rewrite Forall_forall in Hkind.
  split; [intros ?? Hin|intros ??? Hin]; by apply Hkind in Hin.
Qed.

Lemma capped_nil : capped [].
Proof. split; [intros ?? Hin|intros ??? Hin]; by apply elem_of_nil in Hin. Qed.

Lemma capped_app (events more : list event) :
  capped events → capped more → capped (events ++ more).
Proof.
  intros [Hs He] [Hs' He'].
  split; [intros ?? Hin|intros ??? Hin]; apply elem_of_app in Hin as [Hin|Hin]; eauto.
Qed.

Section Runs.
Context {up : Upper} {B : Type}.
Implicit Types (jira : JIRA B) (issue : Issue) (r : Run B).

(** A dry run of the decision: no call, the change needed as result. *)
Lemma updateStatusIfNeeded_dryrun jira issue r :
  ∃ newStatus,
    updateStatusIfNeeded jira issue true r
    = (Return (changeNeeded issue),
       after r [Log INFO (StatusChangeResult (key issue) (status_name issue)
                                             newStatus false)]).
Proof.
  rewrite updateStatusIfNeeded_run. cbv zeta. unfold changeNeeded.
  destruct (if decide (upper (status_name issue) ∈ MODIFIABLE_STATUS)
            then matchedTarget issue else None) as [newStatus|].
  - exists newStatus. by rewrite andb_false_r.
  - by exists (status_name issue).
Qed.

(** Any run of the decision: the events it adds, and its result, which is
    the change needed unless the transition call raised. *)
Lemma updateStatusIfNeeded_decided jira issue (dryrun : bool) r :
  ∃ new,
    trace (updateStatusIfNeeded jira issue dryrun r).2 = trace r ++ new
    ∧ decided issue new
    ∧ (dryrun = true → transition_calls new = [])
    ∧ ((updateStatusIfNeeded jira issue dryrun r).1 = Return (changeNeeded issue)
       ∨ ∃ e, (updateStatusIfNeeded jira issue dryrun r).1 = Raise e).
Proof.
  rewrite updateStatusIfNeeded_run. cbv zeta. unfold changeNeeded.
  destruct (if decide (upper (status_name issue) ∈ MODIFIABLE_STATUS)
            then matchedTarget issue else None) as [newStatus|].
  2:{ eexists. split; [done|]. split; [constructor|]. split; [done|by left]. }
  destruct (bool_decide (newStatus ≠ status_name issue)) eqn:Hdiff; simpl.
  2:{ eexists. split; [done|]. split; [constructor|]. split; [done|by left]. }
  destruct dryrun; simpl.
  { eexists. split; [done|]. split; [constructor|]. split; [done|by left]. }
  apply bool_decide_eq_true in Hdiff.
  destruct (transition jira (key issue) newStatus (backend r)) as [[[]|e] b]; simpl.
  - eexists. split; [done|]. split; [constructor|]. split; [done|left].
    by rewrite bool_decide_eq_true_2.
  - eexists. split; [done|]. split; [constructor|]. split; [done|right; by exists e].
Qed.

(** The loop over the issues of a project: the issues it took up, the
    events it added for them, and its counters when it returns. *)
Lemma main_issues_trace jira (dryrun : bool) (issues : list Issue)
    (possibleChanges performedChanges : nat) r :
  ∃ taken new,
    taken `prefix_of` issues
    ∧ issues_trace taken new
    ∧ (dryrun = true → transition_calls new = [])
    ∧ trace (main_issues jira dryrun issues possibleChanges performedChanges r).2
      = trace r ++ new
    ∧ ∀ counts,
        (main_issues jira dryrun issues possibleChanges performedChanges r).1
        = Return counts →
        taken = issues
        ∧ counts.1 = (possibleChanges + length issues)%nat
        ∧ counts.2 = (performedChanges
                      + length (filter (λ issue, changeNeeded issue = true) issues))%nat.
Proof.
  revert possibleChanges performedChanges r.
  induction issues as [|issue rest IH]; intros possibleChanges performedChanges r.
  { exists [], []. split; [done|]. split; [constructor|]. split; [done|]. simpl.
    split; [by rewrite app_nil_r|]. intros counts [= <-]. simpl. split; [done|lia]. }
  rewrite main_issues_cons.
  destruct (updateStatusIfNeeded_decided jira issue dryrun
              (after r [Log DEBUG (PerformingVerification (key issue)
                                     (issuetype_name issue))]))
    as (new & Htrace & Hnew & Hdry & Hres).
  destruct (updateStatusIfNeeded jira issue dryrun _) as [[changed|e] r1];
    simpl in Htrace, Hres.
  - destruct Hres as [[= ->]|[e [=]]].
    destruct (IH (possibleChanges + 1)%nat
                 (if changeNeeded issue then (performedChanges + 1)%nat
                  else performedChanges) r1)
      as (taken & more & Hprefix & Hmore & Hdry' & Htrace' & Hcounts).
    exists (issue :: taken), (Log DEBUG (PerformingVerification (key issue)
                                         (issuetype_name issue)) :: new ++ more).
    split; [by apply prefix_cons|]. split; [by constructor|]. split.
    { intros Hd. simpl. by rewrite transition_calls_app, Hdry, Hdry'. }
    split.
    + rewrite Htrace', Htrace. by rewrite <- !app_assoc.
    + intros counts Hret. destruct (Hcounts counts Hret) as (-> & -> & ->).
      split; [done|]. rewrite filter_cons.
      destruct (decide (changeNeeded issue = true)) as [Hc|Hc].
      * rewrite Hc. simpl. lia.
      * apply not_true_is_false in Hc. rewrite Hc. simpl. lia.
  - exists [issue], (Log DEBUG (PerformingVerification (key issue)
                                  (issuetype_name issue)) :: new ++ []).
    split; [apply prefix_cons, prefix_nil|].
    split; [constructor; [done|constructor]|]. split.
    { intros Hd. simpl. by rewrite app_nil_r, Hdry. }
    split.
    + simpl. rewrite Htrace, app_nil_r. by rewrite <- !app_assoc.
    + by intros counts [=].
Qed.

(** The loop over the projects adds, project after project: the record
    that it starts, the search for at most 1000 issues, then either the
    record of a failed query, or the events of the issues taken up, at
    most 1000, and, when all were, the summary.  A property of traces
    that holds of these pieces and of concatenations holds of what the
    loop adds. *)
Lemma main_projects_pieces (P : list event → Prop) jira (dryrun : bool)
    (projectIDs : list string) r :
  P [] →
  (∀ events more, P events → P more → P (events ++ more)) →
  (∀ projectId, P [Log DEBUG (StartProject projectId)]) →
  (∀ projectId, P [search_issues_call (jql projectId) 1000]) →
  (∀ e, P [Log ERROR (QueryError e)]) →
  (∀ taken new, (length taken ≤ 1000)%nat → issues_trace taken new →
                (dryrun = true → transition_calls new = []) → P new) →
  (∀ possibleChanges performedChanges,
     (possibleChanges ≤ 1000)%nat → (performedChanges ≤ possibleChanges)%nat →
     P [Log INFO (EndOfOperations possibleChanges performedChanges)]) →
  ∃ new, trace (main_projects jira dryrun projectIDs r).2 = trace r ++ new ∧ P new.
Proof.
  intros Hnil Happ Hstart Hsearch Herror Hissues Hend. revert r.
  induction projectIDs as [|projectId rest IH]; intros r.
  { exists []. split; [by rewrite app_nil_r|done]. }
  cbn [main_projects]. unfold search_issues, try_except. run_simpl.
  destruct (matching jira (jql projectId) (backend r)) as [[found|e] b]; simpl.
  - destruct (main_issues_trace jira dryrun (take 1000 found) 0 0
                (mkRun b ((trace r ++ [Log DEBUG (StartProject projectId)])
                          ++ [search_issues_call (jql projectId) 1000])))
      as (taken & new & Hprefix & Hnew & Hdry & Htrace & Hcounts).
    assert (Hlen : (length taken ≤ 1000)%nat).
    { apply prefix_length in Hprefix. rewrite length_take in Hprefix. lia. }
    destruct (main_issues jira dryrun (take 1000 found) 0 0 _)
      as [[[possibleChanges performedChanges]|e] r1]; simpl in Htrace.
    + destruct (Hcounts _ eq_refl) as (_ & Hp & Hq). simpl in Hp, Hq.
      destruct (IH (mkRun (backend r1)
                      (trace r1 ++ [Log INFO (EndOfOperations possibleChanges
                                                performedChanges)])))
        as (more & Hmore & HP).
      exists ([Log DEBUG (StartProject projectId)]
                ++ [search_issues_call (jql projectId) 1000]
                ++ new
                ++ [Log INFO (EndOfOperations possibleChanges performedChanges)]
                ++ more).
      split.
      * rewrite Hmore. simpl. rewrite Htrace. by rewrite <- !app_assoc.
      * apply Happ; [apply Hstart|]. apply Happ; [apply Hsearch|].
        apply Happ; [by apply (Hissues taken)|]. apply Happ; [|done].
        apply Hend.
        -- rewrite Hp, length_take. lia.
        -- rewrite Hp, Hq. apply length_filter.
    + exists ([Log DEBUG (StartProject projectId)]
                ++ [search_issues_call (jql projectId) 1000] ++ new).
      split.
      * simpl. rewrite Htrace. by rewrite <- !app_assoc.
      * apply Happ; [apply Hstart|]. apply Happ; [apply Hsearch|].
        by apply (Hissues taken).
  - destruct (IH (mkRun b (((trace r ++ [Log DEBUG (StartProject projectId)])
                            ++ [search_issues_call (jql projectId) 1000])
                           ++ [Log ERROR (QueryError e)])))
      as (more & Hmore & HP).
    exists ([Log DEBUG (StartProject projectId)]
              ++ [search_issues_call (jql projectId) 1000]
              ++ [Log ERROR (QueryError e)] ++ more).
    split.
    + rewrite Hmore. simpl. by rewrite <- !app_assoc.
    + apply Happ; [apply Hstart|]. apply Happ; [apply Hsearch|].
      apply Happ; [apply Herror|done].
Qed.

(** [main] adds the record of the dry-run mode first, or raises at once. *)
Lemma main_pieces (P : list event → Prop) jira (dryrun : bool)
    (projectIDs : list string) r :
  P [] →
  (∀ events more, P events → P more → P (events ++ more)) →
  P [Log INFO (DryrunMode dryrun)] →
  (∀ projectId, P [Log DEBUG (StartProject projectId)]) →
  (∀ projectId, P [search_issues_call (jql projectId) 1000]) →
  (∀ e, P [Log ERROR (QueryError e)]) →
  (∀ taken new, (length taken ≤ 1000)%nat → issues_trace taken new →
                (dryrun = true → transition_calls new = []) → P new) →
  (∀ possibleChanges performedChanges,
     (possibleChanges ≤ 1000)%nat → (performedChanges ≤ possibleChanges)%nat →
     P [Log INFO (EndOfOperations possibleChanges performedChanges)]) →
  ∃ new, trace (main jira dryrun projectIDs r).2 = trace r ++ new ∧ P new.
Proof.
  intros Hnil Happ Hmode Hstart Hsearch Herror Hissues Hend.
  unfold main. destruct (decide (length projectIDs = 0)) as [Hnone|Hsome].
  { exists []. split; [by rewrite app_nil_r|done]. }
  run_simpl.
  destruct (main_projects_pieces P jira dryrun projectIDs
              (mkRun (backend r) (trace r ++ [Log INFO (DryrunMode dryrun)])))
    as (new & Htrace & HP); try done.
  exists ([Log INFO (DryrunMode dryrun)] ++ new). split.
  - rewrite Htrace. simpl. by rewrite <- app_assoc.
  - by apply Happ.
Qed.

End Runs.

(** ** Dry run *)

(** C6.  In a dry run the decision for an issue returns, with no transition
    call and the server left alone, and what it returns is what a run that
    is no dry run returns for the same issue, whenever that one returns (it
    raises when the server refuses the transition).  The same holds of the
    counters of the loop over the issues of a project, and a whole dry run
    of [main] makes no transition call. *)
Theorem dry_run_guarantee {up : Upper} {B : Type} (jira : JIRA B) (issue : Issue)
    (issues : list Issue) (possibleChanges performedChanges : nat)
    (projectIDs : list string) (r : Run B) :
  (∃ (changed : bool) (new : list event),
     updateStatusIfNeeded jira issue true r = (Return changed, after r new)
     ∧ transition_calls new = []
     ∧ ∀ r2 : Run B,
         (updateStatusIfNeeded jira issue false r2).1 = Return changed
         ∨ ∃ e, (updateStatusIfNeeded jira issue false r2).1 = Raise e)
  ∧ (∃ (counts : nat * nat) (new : list event),
       main_issues jira true issues possibleChanges performedChanges r
       = (Return counts, after r new)
       ∧ transition_calls new = []
       ∧ ∀ (r2 : Run B) (counts2 : nat * nat),
           (main_issues jira false issues possibleChanges performedChanges r2).1
           = Return counts2 →
           counts2 = counts)
  ∧ (∃ new : list event,
       trace (main jira true projectIDs r).2 = trace r ++ new
       ∧ transition_calls new = []).
Proof.
  split; [|split].
  - destruct (updateStatusIfNeeded_dryrun jira issue r) as [newStatus Hdry].
    exists (changeNeeded issue). eexists. split; [exact Hdry|]. split; [done|].
    intros r2.
    destruct (updateStatusIfNeeded_decided jira issue false r2) as (_ & _ & _ & _ & Hres).
    exact Hres.
  - exists ((possibleChanges + length issues)%nat,
            (performedChanges
             + length (filter (λ issue, changeNeeded issue = true) issues))%nat).
    assert (Hdry : ∃ new,
      main_issues jira true issues possibleChanges performedChanges r
      = (Return ((possibleChanges + length issues)%nat,
                 (performedChanges
                  + length (filter (λ issue, changeNeeded issue = true) issues))%nat),
         after r new)
      ∧ transition_calls new = []).
    { revert possibleChanges performedChanges r.
      induction issues as [|issue1 rest IH]; intros possibleChanges performedChanges r.
      - exists []. rewrite after_nil. simpl. split; [|done].
        unfold mret, M_ret. do 3 f_equal; lia.
      - rewrite main_issues_cons.
        destruct (updateStatusIfNeeded_dryrun jira issue1
                    (after r [Log DEBUG (PerformingVerification (key issue1)
                                           (issuetype_name issue1))]))
          as [newStatus ->].
        destruct (IH (possibleChanges + 1)%nat
                     (if changeNeeded issue1 then (performedChanges + 1)%nat
                      else performedChanges)
                     (after (after r [Log DEBUG (PerformingVerification (key issue1)
                                                  (issuetype_name issue1))])
                            [Log INFO (StatusChangeResult (key issue1)
                                         (status_name issue1) newStatus false)]))
          as (new & -> & Hquiet).
        eexists. rewrite !after_after. split.
        + f_equal. f_equal. f_equal; [simpl; lia|]. rewrite filter_cons.
          destruct (decide (changeNeeded issue1 = true)) as [Hc|Hc].
          * rewrite Hc. simpl. lia.
          * apply not_true_is_false in Hc. by rewrite Hc.
        + by rewrite !transition_calls_app, Hquiet. }
    destruct Hdry as (new & Hdry & Hquiet). exists new.
    split; [exact Hdry|]. split; [exact Hquiet|].
    intros r2 [p2 q2] Hret.
    destruct (main_issues_trace jira false issues possibleChanges performedChanges r2)
      as (taken & new2 & _ & _ & _ & _ & Hcounts).
    destruct (Hcounts _ Hret) as (_ & Hp & Hq). simpl in Hp, Hq. by subst.
  - apply (main_pieces (λ new, transition_calls new = [])); try done.
    + intros events more Hevents Hmore.
      by rewrite transition_calls_app, Hevents, Hmore.
    + intros taken new _ _ Hquiet. by apply Hquiet.
Qed.

(** ** One transition per issue taken up *)

Lemma occurrences_not_elem_of (k : string) (keys : list string) :
  k ∉ keys → occurrences k keys = 0%nat.
Proof.
  induction keys as [|k' keys IH]; [done|].
  intros [Hk Hnotin]%not_elem_of_cons. rewrite occurrences_cons.
  rewrite decide_False by done. by rewrite IH.
Qed.

Lemma NoDup_occurrences (k : string) (keys : list string) :
  NoDup keys → (occurrences k keys ≤ 1)%nat.
Proof.
  induction 1 as [|k' keys Hnotin _ IH]; [unfold occurrences; simpl; lia|].
  rewrite occurrences_cons. destruct (decide (k' = k)) as [->|Hk]; [|lia].
  rewrite (occurrences_not_elem_of _ _ Hnotin). lia.
Qed.

(** C9 as stated fails.  The configuration [projects: P P] names a project
    twice, nothing removes the repetition, and the run asks the server
    twice to move the one story P-1 of the project. *)
Lemma repeated_project_code_transitions_twice :
  getProjectIDs [(YAML_PROJECT_KEYWORD, yaml_str "P P")] = Some ["P"; "P"]
  ∧ transition_calls
      (trace (main (server [] (λ _, [story "P-1" "TO DO" ["DONE"]]))
                   false ["P"; "P"] start).2)
    = [("P-1", "DONE"); ("P-1", "DONE")].
Proof. split; by vm_compute. Qed.

(** C9, as the script has it.  One call of [updateStatusIfNeeded] makes at
    most one transition call, and that one for the key of its issue.  In the
    loop over the issues of a project, and so in a run of [main] over a
    single project, issues of pairwise distinct keys get at most one
    transition call each.  Over any run of [main], no key has more
    transition calls than the loop has records of taking the issue up
    (line 199): project codes and search results are taken as they come,
    repetitions included. *)
Theorem one_transition_per_examination {up : Upper} {B : Type} (jira : JIRA B)
    (issue : Issue) (issues : list Issue) (possibleChanges performedChanges : nat)
    (dryrun : bool) (projectId : string) (projectIDs : list string) (r : Run B) :
  (∃ new : list event,
     trace (updateStatusIfNeeded jira issue dryrun r).2 = trace r ++ new
     ∧ (length (transition_calls new) ≤ 1)%nat
     ∧ Forall (λ call : string * string, call.1 = key issue) (transition_calls new))
  ∧ (NoDup (key <$> issues) →
     ∃ new : list event,
       trace (main_issues jira dryrun issues possibleChanges performedChanges r).2
       = trace r ++ new
       ∧ ∀ k : string, (occurrences k ((transition_calls new).*1) ≤ 1)%nat)
  ∧ (∀ found b,
       matching jira (jql projectId) (backend r) = (Return found, b) →
       NoDup (key <$> found) →
       ∃ new : list event,
         trace (main jira dryrun [projectId] r).2 = trace r ++ new
         ∧ ∀ k : string, (occurrences k ((transition_calls new).*1) ≤ 1)%nat)
  ∧ (∃ new : list event,
       trace (main jira dryrun projectIDs r).2 = trace r ++ new
       ∧ ∀ k : string,
           (occurrences k ((transition_calls new).*1)
            ≤ occurrences k (examined new))%nat).
Proof.
  assert (Hloop : ∀ (l : list Issue) p q (r0 : Run B),
    NoDup (key <$> l) →
    ∃ new : list event,
      trace (main_issues jira dryrun l p q r0).2 = trace r0 ++ new
      ∧ ∀ k : string, (occurrences k ((transition_calls new).*1) ≤ 1)%nat).
  { intros l p q r0 Hdistinct.
    destruct (main_issues_trace jira dryrun l p q r0)
      as (taken & new & [later ->] & Hnew & _ & Htrace & _).
    exists new. split; [exact Htrace|]. intros k.
    pose proof (issues_trace_one_call _ _ Hnew k) as Hone.
    rewrite (issues_trace_examined _ _ Hnew) in Hone.
    rewrite fmap_app in Hdistinct. apply NoDup_app in Hdistinct as (Htaken & _ & _).
    pose proof (NoDup_occurrences k _ Htaken). lia. }
  split; [|split; [|split]].
  - destruct (updateStatusIfNeeded_decided jira issue dryrun r)
      as (new & Htrace & Hnew & _ & _).
    exists new. split; [exact Htrace|].
    destruct (decided_transition_calls _ _ Hnew) as [->|[newStatus ->]]; simpl.
    + split; [lia|constructor].
    + split; [lia|by repeat constructor].
  - apply Hloop.
  - intros found b Hfound Hdistinct.
    assert (Htake : NoDup (key <$> take 1000 found)).
    { rewrite <- (take_drop 1000 found), fmap_app in Hdistinct.
      by apply NoDup_app in Hdistinct as (Htake & _ & _). }
    unfold main. rewrite decide_False by done.
    cbn [main_projects]. unfold search_issues, try_except. run_simpl.
    rewrite Hfound. simpl.
    destruct (Hloop (take 1000 found) 0%nat 0%nat
                (mkRun b (((trace r ++ [Log INFO (DryrunMode dryrun)])
                           ++ [Log DEBUG (StartProject projectId)])
                          ++ [search_issues_call (jql projectId) 1000])) Htake)
      as (new & Htrace & Hone).
    destruct (main_issues jira dryrun (take 1000 found) 0 0 _)
      as [[[p q]|e] r1]; simpl in Htrace; simpl.
    + exists ([Log INFO (DryrunMode dryrun)]
                ++ [Log DEBUG (StartProject projectId)]
                ++ [search_issues_call (jql projectId) 1000]
                ++ new ++ [Log INFO (EndOfOperations p q)]).
      split; [rewrite Htrace; by rewrite <- !app_assoc|].
      intros k. simpl. rewrite transition_calls_app. simpl.
      rewrite app_nil_r. apply Hone.
    + exists ([Log INFO (DryrunMode dryrun)]
                ++ [Log DEBUG (StartProject projectId)]
                ++ [search_issues_call (jql projectId) 1000] ++ new).
      split; [rewrite Htrace; by rewrite <- !app_assoc|].
      intros k. simpl. apply Hone.
  - destruct (main_pieces one_call_per_examination jira dryrun projectIDs r)
      as (new & Htrace & Hone).
    + apply one_call_per_examination_nil.
    + apply one_call_per_examination_app.
    + by apply one_call_per_examination_quiet.
    + intros p. by apply one_call_per_examination_quiet.
    + intros p. by apply one_call_per_examination_quiet.
    + intros e. by apply one_call_per_examination_quiet.
    + intros taken new _ Hnew _. by apply (issues_trace_one_call taken).
    + intros p q _ _. by apply one_call_per_examination_quiet.
    + exists new. split; [exact Htrace|exact Hone].
Qed.

(** A project of three stories of distinct keys, outside dry-run: one
    transition call for each of the two that are to be moved. *)
Lemma one_transition_per_examination_witness :
  NoDup (key <$> [story "P-1" "TO DO" ["DONE"]; story "P-2" "DONE" ["DONE"];
                  story "P-3" "To Do" ["Blocked"]])
  ∧ ∃ new : list event,
      trace (main (server [] (λ _, [story "P-1" "TO DO" ["DONE"];
                                    story "P-2" "DONE" ["DONE"];
                                    story "P-3" "To Do" ["Blocked"]]))
                  false ["P"] start).2
      = trace start ++ new
      ∧ ∀ k : string, (occurrences k ((transition_calls new).*1) ≤ 1)%nat.
Proof.
  assert (Hdistinct : NoDup (key <$> [story "P-1" "TO DO" ["DONE"];
                                      story "P-2" "DONE" ["DONE"];
                                      story "P-3" "To Do" ["Blocked"]])).
  { apply (bool_decide_unpack _). vm_compute. exact I. }
  split; [exact Hdistinct|].
  exact (proj1 (proj2 (proj2
    (one_transition_per_examination
       (server [] (λ _, [story "P-1" "TO DO" ["DONE"]; story "P-2" "DONE" ["DONE"];
                         story "P-3" "To Do" ["Blocked"]]))
       (story "P-1" "TO DO" ["DONE"]) [] 0 0 false "P" [] start)))
    _ () eq_refl Hdistinct).
Defined.

(** ** The search of a project's issues *)

Lemma prefix_fmap_key (taken issues : list Issue) :
  taken `prefix_of` issues → (key <$> taken) `prefix_of` (key <$> issues).
Proof. intros [more ->]. rewrite fmap_app. by eexists. Qed.

(** The loop over the projects, one project at a time. *)
Lemma main_projects_cons {up : Upper} {B : Type} (jira : JIRA B) (dryrun : bool)
    (projectId : string) (rest : list string) (r : Run B) :
  main_projects jira dryrun (projectId :: rest) r
  = (main_projects jira dryrun [projectId];; main_projects jira dryrun rest) r.
Proof.
  cbn [main_projects]. unfold search_issues, try_except. run_simpl.
  destruct (matching jira (jql projectId) (backend r)) as [[found|e] b]; simpl; [|done].
  by destruct (main_issues jira dryrun (take 1000 found) 0 0 _) as [[[p q]|e] r1].
Qed.

(** C10.  [main] issues every search with [maxResults=1000], and no
    summary of a project counts more than 1000 issues.  For one project:
    when the query matches the issues [found], the issues the loop takes up
    are the first ones of the first 1000 of [found], in order, at most 1000,
    and every transition call is for one of these first 1000; when the
    query raises, no issue is taken up.  Nothing in the trace tells that
    [found] had more. *)
Theorem fetch_cap {up : Upper} {B : Type} (jira : JIRA B) (dryrun : bool)
    (projectId : string) (projectIDs : list string) (r : Run B) :
  (∃ new : list event,
     trace (main jira dryrun projectIDs r).2 = trace r ++ new
     ∧ (∀ jql_str maxResults,
          search_issues_call jql_str maxResults ∈ new → maxResults = 1000)
     ∧ (∀ lvl possibleChanges performedChanges,
          Log lvl (EndOfOperations possibleChanges performedChanges) ∈ new →
          (possibleChanges ≤ 1000)%nat))
  ∧ (∃ new : list event,
       trace (main_projects jira dryrun [projectId] r).2 = trace r ++ new
       ∧ match matching jira (jql projectId) (backend r) with
         | (Return found, _) =>
             examined new `prefix_of` (key <$> take 1000 found)
             ∧ (length (examined new) ≤ 1000)%nat
             ∧ Forall (λ call : string * string, call.1 ∈ key <$> take 1000 found)
                      (transition_calls new)
         | (Raise _, _) => examined new = [] ∧ transition_calls new = []
         end)
  ∧ main_projects jira dryrun (projectId :: projectIDs) r
    = (main_projects jira dryrun [projectId];; main_projects jira dryrun projectIDs) r.
Proof.
  split; [|split; [|apply main_projects_cons]].
  - destruct (main_pieces capped jira dryrun projectIDs r) as (new & Htrace & Hs & He).
    + apply capped_nil.
    + apply capped_app.
    + split; [intros ?? Hin|intros ??? Hin]; by apply list_elem_of_singleton in Hin.
    + intros p. split; [intros ?? Hin|intros ??? Hin];
        by apply list_elem_of_singleton in Hin.
    + intros p. split; [intros ?? Hin|intros ??? Hin];
        apply list_elem_of_singleton in Hin; by simplify_eq.
    + intros e. split; [intros ?? Hin|intros ??? Hin];
        by apply list_elem_of_singleton in Hin.
    + intros taken new _ Hnew _. by apply (issues_trace_capped taken).
    + intros p q Hp Hq. split; [intros ?? Hin|intros ??? Hin];
        apply list_elem_of_singleton in Hin; by simplify_eq.
    + exists new. split; [exact Htrace|]. split; [exact Hs|].
      intros lvl p q Hin. by destruct (He lvl p q Hin).
  - cbn [main_projects]. unfold search_issues, try_except. run_simpl.
    destruct (matching jira (jql projectId) (backend r)) as [[found|e] b]; simpl.
    + destruct (main_issues_trace jira dryrun (take 1000 found) 0 0
                  (mkRun b ((trace r ++ [Log DEBUG (StartProject projectId)])
                            ++ [search_issues_call (jql projectId) 1000])))
        as (taken & new & Hprefix & Hnew & _ & Htrace & _).
      assert (Hkeys : (key <$> taken) `prefix_of` (key <$> take 1000 found))
        by by apply prefix_fmap_key.
      assert (Hlen : (length (key <$> taken) ≤ 1000)%nat).
      { apply prefix_length in Hprefix. rewrite length_fmap.
        rewrite length_take in Hprefix. lia. }
      assert (Hcalls : Forall (λ call : string * string,
                                 call.1 ∈ key <$> take 1000 found)
                              (transition_calls new)).
      { eapply Forall_impl; [by apply (issues_trace_transition_calls taken)|].
        intros call Hcall. simpl in Hcall. destruct Hkeys as [more ->].
        apply elem_of_app. by left. }
      pose proof (issues_trace_examined _ _ Hnew) as Hexamined.
      destruct (main_issues jira dryrun (take 1000 found) 0 0 _)
        as [[[possibleChanges performedChanges]|e] r1]; simpl in Htrace; simpl.
      * exists ([Log DEBUG (StartProject projectId)]
                  ++ [search_issues_call (jql projectId) 1000]
                  ++ new
                  ++ [Log INFO (EndOfOperations possibleChanges performedChanges)]).
        split; [rewrite Htrace; by rewrite <- !app_assoc|].
        simpl. rewrite examined_app, transition_calls_app, Hexamined. simpl.
        by rewrite !app_nil_r.
      * exists ([Log DEBUG (StartProject projectId)]
                  ++ [search_issues_call (jql projectId) 1000] ++ new).
        split; [rewrite Htrace; by rewrite <- !app_assoc|].
        simpl. by rewrite Hexamined.
    + exists [Log DEBUG (StartProject projectId);
              search_issues_call (jql projectId) 1000;
              Log ERROR (QueryError e)].
      split; [by rewrite <- !app_assoc|done].
Qed.

(** A sprint of 1001 stories: the run takes up P-0 to P-999 and reports
    1000 issues; P-1000 is neither taken up nor moved. *)
Example backlog_beyond_cap :
  let run := (main (server [] (λ _, backlog 1001)) false ["P"] start).2 in
  length (examined (trace run)) = 1000
  ∧ bool_decide ("P-999" ∈ examined (trace run)) = true
  ∧ bool_decide ("P-1000" ∈ examined (trace run)) = false
  ∧ bool_decide (("P-1000", "DONE") ∈ transition_calls (trace run)) = false
  ∧ last (trace run) = Some (Log INFO (EndOfOperations 1000 1000)).
Proof. by vm_compute. Qed.

(** ** A refused transition *)

(** An exception of the decision for an issue leaves the loop over the
    issues: the issues after it are not taken up. *)
Lemma main_issues_raise {up : Upper} {B : Type} (jira : JIRA B) (dryrun : bool)
    (issue : Issue) (rest : list Issue) (possibleChanges performedChanges : nat)
    (e : exn) (r r' : Run B) :
  updateStatusIfNeeded jira issue dryrun
    (after r [Log DEBUG (PerformingVerification (key issue) (issuetype_name issue))])
  = (Raise e, r') →
  main_issues jira dryrun (issue :: rest) possibleChanges performedChanges r
  = (Raise e, r').
Proof. intros Hraise. by rewrite main_issues_cons, Hraise. Qed.

(** C8, on the script.  The server refuses the transition of P-1, the first
    of two stories of project P, and Q is a second project.  The exception
    of line 91 is caught nowhere: [main] raises it, the last event of the
    run is the refused call; no record of the result for P-1, P-2 is not
    taken up, P has no summary and Q is not started. *)
Theorem refused_transition_aborts_run :
  main (server ["P-1"]
          (λ _, [story "P-1" "TO DO" ["DONE"]; story "P-2" "TO DO" ["DONE"]]))
       false ["P"; "Q"] start
  = (Raise (JIRAError "transition refused"),
     mkRun () [Log INFO (DryrunMode false);
               Log DEBUG (StartProject "P");
               search_issues_call (jql "P") 1000;
               Log DEBUG (PerformingVerification "P-1" "Story");
               transition_issue_call "P-1" "DONE"]).
Proof. by vm_compute. Qed.

(** * Further properties of the script *)

(** ** The project codes of the configuration *)

Lemma split_space_not_nil (s : string) : split_space s ≠ [].
Proof.
  destruct s as [|c rest]; [done|]. simpl.
  destruct (decide (c = " "%char)); [done|]. by destruct (split_space rest).
Qed.

Lemma join_space_cons (piece : string) (pieces : list string) :
  pieces ≠ [] → join_space (piece :: pieces) = piece +:+ " " +:+ join_space pieces.
Proof. by destruct pieces. Qed.

Lemma join_space_split_space (s : string) : join_space (split_space s) = s.
Proof.
  induction s as [|c rest IH]; [done|]. simpl.
  destruct (decide (c = " "%char)) as [->|Hc].
  - rewrite join_space_cons by apply split_space_not_nil. simpl. by rewrite IH.
  - pose proof (split_space_not_nil rest) as Hne.
    destruct (split_space rest) as [|piece pieces]; [done|].
    by rewrite <- IH; destruct pieces.
Qed.

Lemma split_space_length (s : string) :
  length (split_space s) = S (count_space s).
Proof.
  induction s as [|c rest IH]; [done|]. simpl.
  destruct (decide (c = " "%char)); simpl; [by rewrite IH|].
  pose proof (split_space_not_nil rest).
  by destruct (split_space rest).
Qed.

Lemma split_space_no_space (s : string) :
  Forall (λ piece, count_space piece = 0) (split_space s).
Proof.
  induction s as [|c rest IH]; simpl; [by repeat constructor|].
  destruct (decide (c = " "%char)) as [->|Hc]; [by constructor|].
  destruct (split_space rest) as [|piece pieces]; simpl.
  - repeat constructor. simpl. by rewrite decide_False.
  - apply Forall_cons in IH as [Hpiece Hpieces]. constructor; [|done].
    simpl. by rewrite decide_False.
Qed.

Lemma split_space_piece (piece : string) :
  count_space piece = 0 → split_space piece = [piece].
Proof.
  induction piece as [|c rest IH]; [done|]. simpl.
  destruct (decide (c = " "%char)); [done|]. intros Hrest. by rewrite IH.
Qed.

Lemma split_space_append (piece s : string) :
  count_space piece = 0 →
  split_space (piece +:+ " " +:+ s) = piece :: split_space s.
Proof.
  induction piece as [|c rest IH]; [done|]. simpl.
  destruct (decide (c = " "%char)); [done|]. intros Hrest. by rewrite IH.
Qed.

Lemma getProjectIDs_found (before later : list (string * yaml)) (value : yaml) :
  YAML_PROJECT_KEYWORD ∉ before.*1 →
  getProjectIDs (before ++ (YAML_PROJECT_KEYWORD, value) :: later)
  = match value with
    | yaml_str s => Some (split_space s)
    | yaml_other => None
    end.
Proof.
  induction before as [|[k v] before IH]; intros Hnot; cbn [app getProjectIDs].
  - by rewrite decide_True.
  - rewrite fmap_cons in Hnot. apply not_elem_of_cons in Hnot as [Hk Hnot].
    rewrite decide_False by done. by apply IH.
Qed.

Lemma getProjectIDs_nil_iff (documents : list (string * yaml)) :
  getProjectIDs documents = Some [] ↔ YAML_PROJECT_KEYWORD ∉ documents.*1.
Proof.
  induction documents as [|[k v] rest IH]; simpl.
  - split; [intros _; apply not_elem_of_nil|done].
  - destruct (decide (k = YAML_PROJECT_KEYWORD)) as [->|Hk].
    + split.
      * destruct v as [s|]; [|done]. intros [= Hnil].
        by apply split_space_not_nil in Hnil.
      * intros Hnot. exfalso. apply Hnot. by left.
    + rewrite IH. rewrite not_elem_of_cons. naive_solver.
Qed.

(** X1.  [getProjectIDs] returns the empty list exactly when the mapping has
    no [projects] key: a [projects] key with a string value, the empty
    string included, gives at least one code, and one with another value
    gives no list at all. *)
Theorem getProjectIDs_empty_iff_no_key (documents : list (string * yaml)) :
  (getProjectIDs documents = Some [] ↔ YAML_PROJECT_KEYWORD ∉ documents.*1)
  ∧ (∀ later s, getProjectIDs ((YAML_PROJECT_KEYWORD, yaml_str s) :: later) ≠ Some [])
  ∧ (∀ later, getProjectIDs ((YAML_PROJECT_KEYWORD, yaml_other) :: later) = None).
Proof.
  split; [apply getProjectIDs_nil_iff|]. split.
  - intros later s Hnil. apply getProjectIDs_nil_iff in Hnil.
    apply Hnil. by left.
  - intros later. cbn [getProjectIDs]. by rewrite decide_True.
Qed.

(** X2.  When the first [projects] entry of the mapping is the string [s],
    the codes returned are the pieces of [s] between its spaces: joined with
    single spaces they give [s] back, none of them has a space, and there is
    one more of them than [s] has spaces, so that doubled, leading or trailing
    spaces give empty codes. *)
Theorem getProjectIDs_pieces (before later : list (string * yaml)) (s : string) :
  YAML_PROJECT_KEYWORD ∉ before.*1 →
  ∃ projectIDs,
    getProjectIDs (before ++ (YAML_PROJECT_KEYWORD, yaml_str s) :: later)
    = Some projectIDs
    ∧ join_space projectIDs = s
    ∧ Forall (λ projectId, count_space projectId = 0) projectIDs
    ∧ length projectIDs = S (count_space s).
Proof.
  intros Hnot. exists (split_space s). split; [by rewrite getProjectIDs_found|].
  split; [apply join_space_split_space|].
  split; [apply split_space_no_space|apply split_space_length].
Qed.

(** The configuration of two projects, written with two spaces. *)
Lemma getProjectIDs_pieces_witness :
  (YAML_PROJECT_KEYWORD ∉ [("server", yaml_str "x")].*1)
  ∧ ∃ projectIDs,
      getProjectIDs ([("server", yaml_str "x")]
                     ++ (YAML_PROJECT_KEYWORD, yaml_str "ABC  DEF") :: [])
      = Some projectIDs
      ∧ join_space projectIDs = "ABC  DEF"
      ∧ Forall (λ projectId, count_space projectId = 0) projectIDs
      ∧ length projectIDs = S (count_space "ABC  DEF").
Proof.
  assert (Hnot : YAML_PROJECT_KEYWORD ∉ [("server", yaml_str "x")].*1).
  { apply (bool_decide_unpack _). vm_compute. exact I. }
  split; [exact Hnot|].
  exact (getProjectIDs_pieces [("server", yaml_str "x")] [] "ABC  DEF" Hnot).
Defined.

(** X3.  When the value loaded under [projects] is the string made of
    codes without spaces joined by single spaces, [getProjectIDs] returns
    these codes as they are.  (Which text of the file loads as that string
    is the YAML loader's matter.) *)
Theorem getProjectIDs_of_join (before later : list (string * yaml))
    (projectIDs : list string) :
  YAML_PROJECT_KEYWORD ∉ before.*1 →
  projectIDs ≠ [] →
  Forall (λ projectId, count_space projectId = 0) projectIDs →
  getProjectIDs (before ++ (YAML_PROJECT_KEYWORD, yaml_str (join_space projectIDs)) :: later)
  = Some projectIDs.
Proof.
  intros Hnot Hne Hpieces. rewrite getProjectIDs_found by done. f_equal.
  induction Hpieces as [|piece pieces Hpiece Hpieces IH]; [done|].
  destruct pieces as [|piece' pieces].
  - by apply split_space_piece.
  - rewrite join_space_cons by done. rewrite split_space_append by done.
    by rewrite IH.
Qed.

Lemma getProjectIDs_of_join_witness :
  (YAML_PROJECT_KEYWORD ∉ (@nil (string * yaml)).*1)
  ∧ ["ABC"; "DEF"; "X1"] ≠ []
  ∧ Forall (λ projectId, count_space projectId = 0) ["ABC"; "DEF"; "X1"]
  ∧ getProjectIDs ([] ++ (YAML_PROJECT_KEYWORD, yaml_str (join_space ["ABC"; "DEF"; "X1"]))
                      :: [("server", yaml_other)])
    = Some ["ABC"; "DEF"; "X1"].
Proof.
  assert (Hnot : YAML_PROJECT_KEYWORD ∉ (@nil (string * yaml)).*1)
    by apply not_elem_of_nil.
  assert (Hne : ["ABC"; "DEF"; "X1"] ≠ @nil string) by discriminate.
  assert (Hpieces : Forall (λ projectId, count_space projectId = 0) ["ABC"; "DEF"; "X1"])
    by (repeat constructor).
  split; [exact Hnot|]. split; [exact Hne|]. split; [exact Hpieces|].
  exact (getProjectIDs_of_join [] [("server", yaml_other)] ["ABC"; "DEF"; "X1"]
           Hnot Hne Hpieces).
Defined.

(** ** The exceptions that leave [main] *)

Section Exceptions.
Context {up : Upper} {B : Type}.
Implicit Types (jira : JIRA B) (issue : Issue) (r : Run B).

(** The decision for an issue raises only what the server raised for the
    transition call, outside dry-run; the call is the last event then. *)
Lemma updateStatusIfNeeded_raise_inv jira issue (dryrun : bool) r (e : exn) r' :
  updateStatusIfNeeded jira issue dryrun r = (Raise e, r') →
  dryrun = false
  ∧ ∃ newStatus,
      transition jira (key issue) newStatus (backend r) = (Raise e, backend r')
      ∧ trace r' = trace r ++ [transition_issue_call (key issue) newStatus].
Proof.
  rewrite updateStatusIfNeeded_run. cbv zeta.
  destruct (if decide (upper (status_name issue) ∈ MODIFIABLE_STATUS)
            then matchedTarget issue else None) as [newStatus|]; [|done].
  destruct (bool_decide (newStatus ≠ status_name issue)); simpl; [|done].
  destruct dryrun; simpl; [done|].
  destruct (transition jira (key issue) newStatus (backend r)) as [[[]|e'] b] eqn:Hcall;
    [done|].
  intros [= -> <-]. split; [done|]. by exists newStatus.
Qed.

Lemma main_issues_raise_inv jira (dryrun : bool) (issues : list Issue)
    (possibleChanges performedChanges : nat) r (e : exn) r' :
  main_issues jira dryrun issues possibleChanges performedChanges r = (Raise e, r') →
  dryrun = false
  ∧ ∃ issueKey newStatus,
      last (trace r') = Some (transition_issue_call issueKey newStatus).
Proof.
  revert possibleChanges performedChanges r.
  induction issues as [|issue rest IH]; intros possibleChanges performedChanges r;
    [done|].
  rewrite main_issues_cons.
  destruct (updateStatusIfNeeded jira issue dryrun _) as [[changed|e1] r1] eqn:Hupd.
  - apply IH.
  - intros [= -> ->].
    apply updateStatusIfNeeded_raise_inv in Hupd as (Hdry & newStatus & _ & Htrace).
    split; [done|]. exists (key issue), newStatus. rewrite Htrace. apply last_snoc.
Qed.

Lemma main_projects_raise_inv jira (dryrun : bool) (projectIDs : list string) r
    (e : exn) r' :
  main_projects jira dryrun projectIDs r = (Raise e, r') →
  dryrun = false
  ∧ ∃ issueKey newStatus,
      last (trace r') = Some (transition_issue_call issueKey newStatus).
Proof.
  revert r. induction projectIDs as [|projectId rest IH]; intros r; [done|].
  cbn [main_projects]. unfold search_issues, try_except. run_simpl.
  destruct (matching jira (jql projectId) (backend r)) as [[found|e1] b]; simpl.
  - destruct (main_issues jira dryrun (take 1000 found) 0 0 _)
      as [[[possibleChanges performedChanges]|e1] r1] eqn:Hissues.
    + apply IH.
    + intros [= -> ->]. by apply main_issues_raise_inv in Hissues.
  - apply IH.
Qed.

End Exceptions.



(** X5.  The loop over the projects (lines 185-202) lets an exception out
    only outside dry-run, and only the exception of a transition call,
    which is then the last event of the run: what a search raises never
    leaves the loop. *)
Theorem project_loop_raises_only {up : Upper} {B : Type} (jira : JIRA B) (dryrun : bool)
    (projectIDs : list string) (r r' : Run B) (e : exn) :
  main_projects jira dryrun projectIDs r = (Raise e, r') →
  dryrun = false
  ∧ projectIDs ≠ []
  ∧ ∃ issueKey newStatus,
      last (trace r') = Some (transition_issue_call issueKey newStatus).
Proof.
  intros Hraise. split; [|split].
  - by apply main_projects_raise_inv in Hraise as [Hdry _].
  - by intros ->.
  - by apply main_projects_raise_inv in Hraise as [_ Hlast].
Qed.

Lemma project_loop_raises_only_witness :
  main_projects (server ["P-1"] (λ _, [story "P-1" "TO DO" ["DONE"]])) false ["P"] start
  = (Raise (JIRAError "transition refused"),
     mkRun () [Log DEBUG (StartProject "P");
               search_issues_call (jql "P") 1000;
               Log DEBUG (PerformingVerification "P-1" "Story");
               transition_issue_call "P-1" "DONE"])
  ∧ (false = false
     ∧ ["P"] ≠ []
     ∧ ∃ issueKey newStatus,
         Some (transition_issue_call "P-1" "DONE")
         = Some (transition_issue_call issueKey newStatus)).
Proof.
  assert (Hrun :
    main_projects (server ["P-1"] (λ _, [story "P-1" "TO DO" ["DONE"]])) false ["P"] start
    = (Raise (JIRAError "transition refused"),
       mkRun () [Log DEBUG (StartProject "P");
                 search_issues_call (jql "P") 1000;
                 Log DEBUG (PerformingVerification "P-1" "Story");
                 transition_issue_call "P-1" "DONE"])) by (by vm_compute).
  split; [exact Hrun|].
  exact (project_loop_raises_only _ _ _ _ _ _ Hrun).
Defined.

(** X6.  In dry-run the loop over the projects (lines 185-202) always
    returns, whatever the server answers or raises to the searches. *)
Theorem dry_run_loop_returns {up : Upper} {B : Type} (jira : JIRA B)
    (projectIDs : list string) (r : Run B) :
  (main_projects jira true projectIDs r).1 = Return ().
Proof.
  destruct (main_projects jira true projectIDs r) as [[[]|e] r'] eqn:Hrun; [done|].
  by apply main_projects_raise_inv in Hrun as [Hdry _].
Qed.

(** X7.  When the search of a project raises, the error is logged, no issue
    of the project is taken up, no summary is written for it, and the loop
    goes on with the next project. *)
Theorem failed_search_skips_project {up : Upper} {B : Type} (jira : JIRA B)
    (dryrun : bool) (projectId : string) (rest : list string) (r : Run B)
    (e : exn) (b : B) :
  matching jira (jql projectId) (backend r) = (Raise e, b) →
  main_projects jira dryrun (projectId :: rest) r
  = main_projects jira dryrun rest
      (mkRun b (trace r ++ [Log DEBUG (StartProject projectId);
                            search_issues_call (jql projectId) 1000;
                            Log ERROR (QueryError e)])).
Proof.
  intros Hsearch. cbn [main_projects]. unfold search_issues, try_except. run_simpl.
  rewrite Hsearch. simpl. by rewrite <- !app_assoc.
Qed.

Lemma failed_search_skips_project_witness :
  matching unreachable (jql "P") (backend start) = (Raise (JIRAError "search failed"), ())
  ∧ main_projects unreachable false ["P"; "Q"] start
    = main_projects unreachable false ["Q"]
        (mkRun () (trace start ++ [Log DEBUG (StartProject "P");
                                   search_issues_call (jql "P") 1000;
                                   Log ERROR (QueryError (JIRAError "search failed"))])).
Proof.
  assert (Hsearch : matching unreachable (jql "P") (backend start)
                    = (Raise (JIRAError "search failed"), ())) by reflexivity.
  split; [exact Hsearch|].
  exact (failed_search_skips_project unreachable false "P" ["Q"] start _ _ Hsearch).
Defined.

(** ** More on the decision for one issue *)

Section Targets.
Context {up : Upper} {B : Type}.
Implicit Types (jira : JIRA B) (issue : Issue) (r : Run B).

(** The decision for an issue of modifiable status with a matched target,
    as the statements the script runs for it. *)
Lemma updateStatusIfNeeded_target jira issue (dryrun : bool) r (target : string) :
  upper (status_name issue) ∈ MODIFIABLE_STATUS →
  matchedTarget issue = Some target →
  updateStatusIfNeeded jira issue dryrun r
  = (if bool_decide (target ≠ status_name issue) && negb dryrun then
       transition_issue jira (key issue) target;;
       log INFO (StatusChangeResult (key issue) (status_name issue) target true);;
       mret true
     else
       log INFO (StatusChangeResult (key issue) (status_name issue) target false);;
       mret (bool_decide (status_name issue ≠ target))) r.
Proof.
  intros Hmod Htarget. rewrite updateStatusIfNeeded_run. cbv zeta. rewrite Htarget.
  destruct (decide (upper (status_name issue) ∈ MODIFIABLE_STATUS)) as [_|Hno];
    [simpl|done].
  destruct (bool_decide (target ≠ status_name issue) && negb dryrun); [|done].
  unfold mbind at 1, M_bind at 1. rewrite transition_issue_run.
  destruct (transition jira (key issue) target (backend r)) as [[[]|e] b]; [|done].
  run_simpl. by rewrite <- app_assoc.
Qed.

(** The matched target is a target of the table. *)
Lemma matchedTarget_in_table issue (target : string) :
  matchedTarget issue = Some target → target ∈ [DONE; TO_DO; BLOCKED; IN_PROGRESS].
Proof.
  unfold matchedTarget, STATUS_RULES. simpl.
  repeat (destruct (satisfies issue _); [intros [= <-]; set_solver|]). done.
Qed.

(** The matched target depends on the subtasks through the set of their
    uppercased statuses only. *)
Lemma matchedTarget_ext (issue1 issue2 : Issue) :
  subtaskStatuses issue1 = subtaskStatuses issue2 →
  matchedTarget issue1 = matchedTarget issue2.
Proof. unfold matchedTarget, STATUS_RULES, satisfies. simpl. by intros ->. Qed.

Lemma subtaskStatuses_nil issue : subtasks issue = [] → subtaskStatuses issue = ∅.
Proof. unfold subtaskStatuses. by intros ->. Qed.

End Targets.

(** X8.  An issue of modifiable status without subtasks matches the first
    rule: its new status is DONE.  Outside dry-run it is moved to DONE
    unless its status is the string DONE already. *)
Theorem childless_issue_is_done {up : Upper} {B : Type} (jira : JIRA B) (issue : Issue)
    (dryrun : bool) (r : Run B) :
  subtasks issue = [] →
  upper (status_name issue) ∈ MODIFIABLE_STATUS →
  updateStatusIfNeeded jira issue dryrun r
  = (if bool_decide (DONE ≠ status_name issue) && negb dryrun then
       transition_issue jira (key issue) DONE;;
       log INFO (StatusChangeResult (key issue) (status_name issue) DONE true);;
       mret true
     else
       log INFO (StatusChangeResult (key issue) (status_name issue) DONE false);;
       mret (bool_decide (status_name issue ≠ DONE))) r.
Proof.
  intros Hnone Hmod. apply updateStatusIfNeeded_target; [done|].
  unfold matchedTarget, STATUS_RULES, satisfies, isSatisfied. simpl.
  rewrite (subtaskStatuses_nil _ Hnone).
  rewrite bool_decide_eq_true_2; [done|set_solver].
Qed.

(** A story in progress that has no subtask is moved to DONE. *)
Lemma childless_issue_is_done_witness :
  subtasks (story "P-4" "In Progress" []) = []
  ∧ (upper (status_name (story "P-4" "In Progress" [])) ∈ MODIFIABLE_STATUS)
  ∧ updateStatusIfNeeded (server [] (λ _, [])) (story "P-4" "In Progress" []) false start
    = (Return true,
       mkRun () [transition_issue_call "P-4" "DONE";
                 Log INFO (StatusChangeResult "P-4" "In Progress" "DONE" true)]).
Proof.
  assert (Hmod : upper (status_name (story "P-4" "In Progress" [])) ∈ MODIFIABLE_STATUS).
  { apply (bool_decide_unpack _). vm_compute. exact I. }
  split; [reflexivity|]. split; [exact Hmod|].
  etrans; [exact (childless_issue_is_done (server [] (λ _, []))
                    (story "P-4" "In Progress" []) false start eq_refl Hmod)|].
  by vm_compute.
Defined.

(** X9.  The decision depends on the subtasks through the set of their
    uppercased statuses only: two issues of the same key and status whose
    subtasks have the same statuses up to case, order and repetition are
    treated alike, rule by rule and as a whole. *)
Theorem decision_depends_on_status_set {up : Upper} {B : Type} (jira : JIRA B)
    (issue1 issue2 : Issue) (dryrun : bool) (r : Run B) :
  key issue1 = key issue2 →
  status_name issue1 = status_name issue2 →
  subtaskStatuses issue1 = subtaskStatuses issue2 →
  (∀ rulePolicy possibleStatus,
     isRuleApplicable issue1 rulePolicy possibleStatus r
     = isRuleApplicable issue2 rulePolicy possibleStatus r)
  ∧ updateStatusIfNeeded jira issue1 dryrun r = updateStatusIfNeeded jira issue2 dryrun r.
Proof.
  intros Hkey Hstatus Hset. split.
  - intros rulePolicy possibleStatus. by rewrite !isRuleApplicable_isSatisfied, Hset.
  - rewrite !updateStatusIfNeeded_run. cbv zeta.
    by rewrite (matchedTarget_ext _ _ Hset), Hkey, Hstatus.
Qed.

Lemma decision_depends_on_status_set_witness :
  key (story "P-5" "To Do" ["Blocked"; "done"; "Done"])
  = key (mkIssue "P-5" "To Do" "Bug" [mkSubtask "DONE"; mkSubtask "BLOCKED"])
  ∧ subtaskStatuses (story "P-5" "To Do" ["Blocked"; "done"; "Done"])
    = subtaskStatuses (mkIssue "P-5" "To Do" "Bug" [mkSubtask "DONE"; mkSubtask "BLOCKED"])
  ∧ updateStatusIfNeeded (server [] (λ _, []))
      (story "P-5" "To Do" ["Blocked"; "done"; "Done"]) false start
    = updateStatusIfNeeded (server [] (λ _, []))
        (mkIssue "P-5" "To Do" "Bug" [mkSubtask "DONE"; mkSubtask "BLOCKED"]) false start.
Proof.
  assert (Hset : subtaskStatuses (story "P-5" "To Do" ["Blocked"; "done"; "Done"])
                 = subtaskStatuses (mkIssue "P-5" "To Do" "Bug"
                                      [mkSubtask "DONE"; mkSubtask "BLOCKED"])).
  { apply (bool_decide_unpack _). vm_compute. exact I. }
  split; [reflexivity|]. split; [exact Hset|].
  exact (proj2 (decision_depends_on_status_set (server [] (λ _, []))
                  (story "P-5" "To Do" ["Blocked"; "done"; "Done"])
                  (mkIssue "P-5" "To Do" "Bug" [mkSubtask "DONE"; mkSubtask "BLOCKED"])
                  false start eq_refl eq_refl Hset)).
Defined.

(** X10.  Evaluating again after the move: when [upper] leaves the four
    modifiable statuses as they are, and the issue of modifiable status has
    the matched target [target], then the issue as it is once its status is
    [target], subtasks unchanged, is left alone by the next evaluation: no
    call, False returned, dry run or not. *)
Theorem second_evaluation_is_noop {up : Upper} {B : Type} (jira : JIRA B) (issue : Issue)
    (dryrun : bool) (target : string) (r : Run B) :
  (∀ s, s ∈ MODIFIABLE_STATUS → upper s = s) →
  matchedTarget issue = Some target →
  updateStatusIfNeeded jira (with_status issue target) dryrun r
  = (Return false,
     after r [Log INFO (StatusChangeResult (key issue) target target false)]).
Proof.
  intros Hfix Htarget.
  assert (Hmod : target ∈ MODIFIABLE_STATUS).
  { pose proof (matchedTarget_in_table issue target Htarget) as Htable.
    unfold MODIFIABLE_STATUS. set_solver. }
  apply (same_string_is_noop jira (with_status issue target)).
  - simpl. by rewrite (Hfix _ Hmod).
  - change (status_name (with_status issue target)) with target.
    rewrite <- Htarget. by apply matchedTarget_ext.
Qed.

Lemma second_evaluation_is_noop_witness :
  (∀ s, s ∈ MODIFIABLE_STATUS → upper s = s)
  ∧ matchedTarget (story "P-6" "To Do" ["In Progress"; "To Do"]) = Some IN_PROGRESS
  ∧ updateStatusIfNeeded (server [] (λ _, []))
      (with_status (story "P-6" "To Do" ["In Progress"; "To Do"]) IN_PROGRESS) false start
    = (Return false,
       after start [Log INFO (StatusChangeResult "P-6" IN_PROGRESS IN_PROGRESS false)]).
Proof.
  assert (Hfix : ∀ s, s ∈ MODIFIABLE_STATUS → upper s = s).
  { intros s Hs. unfold MODIFIABLE_STATUS in Hs.
    repeat (apply elem_of_cons in Hs as [->|Hs]; [reflexivity|]).
    by apply elem_of_nil in Hs. }
  assert (Htarget : matchedTarget (story "P-6" "To Do" ["In Progress"; "To Do"])
                    = Some IN_PROGRESS) by (by vm_compute).
  split; [exact Hfix|]. split; [exact Htarget|].
  exact (second_evaluation_is_noop (server [] (λ _, []))
           (story "P-6" "To Do" ["In Progress"; "To Do"]) false IN_PROGRESS start
           Hfix Htarget).
Defined.

(** X11.  A rule whose policy is neither [all] nor [at_least_one] raises
    nothing: [isRuleApplicable] logs a warning and returns False, and the
    loop over the rules goes on with the rules after it. *)
Theorem unsupported_policy_is_skipped {up : Upper} {B : Type} (jira : JIRA B)
    (issue : Issue) (dryrun : bool) (target rulePolicy : string)
    (possibleStatus : gset string) (rest : list Rule) (r : Run B) :
  rulePolicy ≠ RULE_POLICY_ALL →
  rulePolicy ≠ RULE_POLICY_AT_LEAST_ONE →
  isRuleApplicable issue rulePolicy possibleStatus r
  = (Return false, after r [Log WARNING (NotSupportedRulePolicy rulePolicy)])
  ∧ updateStatusIfNeeded_rules jira issue dryrun
      ((target, (rulePolicy, possibleStatus)) :: rest) r
    = updateStatusIfNeeded_rules jira issue dryrun rest
        (after r [Log WARNING (NotSupportedRulePolicy rulePolicy)]).
Proof.
  intros Hall Hone.
  assert (Hwarn : isRuleApplicable issue rulePolicy possibleStatus r
                  = (Return false, after r [Log WARNING (NotSupportedRulePolicy rulePolicy)])).
  { unfold isRuleApplicable.
    rewrite decide_False by done. by rewrite decide_False by done. }
  split; [exact Hwarn|].
  cbn [updateStatusIfNeeded_rules]. unfold mbind at 1, M_bind at 1. by rewrite Hwarn.
Qed.

Lemma unsupported_policy_is_skipped_witness :
  "any" ≠ RULE_POLICY_ALL
  ∧ "any" ≠ RULE_POLICY_AT_LEAST_ONE
  ∧ updateStatusIfNeeded_rules (server [] (λ _, [])) (story "P-8" "TO DO" ["BLOCKED"]) true
      [(DONE, ("any", {[ BLOCKED ]})); (BLOCKED, (RULE_POLICY_AT_LEAST_ONE, {[ BLOCKED ]}))]
      start
    = (Return (BLOCKED, false),
       after start [Log WARNING (NotSupportedRulePolicy "any")]).
Proof.
  assert (Hall : "any" ≠ RULE_POLICY_ALL) by discriminate.
  assert (Hone : "any" ≠ RULE_POLICY_AT_LEAST_ONE) by discriminate.
  split; [exact Hall|]. split; [exact Hone|].
  etrans; [exact (proj2 (unsupported_policy_is_skipped (server [] (λ _, []))
                           (story "P-8" "TO DO" ["BLOCKED"]) true DONE "any" {[ BLOCKED ]}
                           [(BLOCKED, (RULE_POLICY_AT_LEAST_ONE, {[ BLOCKED ]}))] start
                           Hall Hone))|].
  by vm_compute.
Defined.

(** X12.  Mixed subtasks: when the subtasks of an issue are not all DONE or
    ACCEPTED, not all TO DO, and none of them is BLOCKED or IN PROGRESS (a
    TO DO next to a DONE, say), no rule applies: the issue is left alone and
    False is returned, dry run or not. *)
Theorem mixed_subtasks_match_no_rule {up : Upper} {B : Type} (jira : JIRA B)
    (issue : Issue) (dryrun : bool) (r : Run B) :
  ¬ Forall (λ subt, upper (subtask_status_name subt) ∈ [DONE; ACCEPTED]) (subtasks issue) →
  ¬ Forall (λ subt, upper (subtask_status_name subt) = TO_DO) (subtasks issue) →
  ¬ Exists (λ subt, upper (subtask_status_name subt) ∈ [BLOCKED; IN_PROGRESS])
           (subtasks issue) →
  updateStatusIfNeeded jira issue dryrun r
  = (Return false,
     after r [Log INFO (StatusChangeResult (key issue) (status_name issue)
                                           (status_name issue) false)]).
Proof.
  intros Hdone Htodo Hbusy.
  assert (Hin : ∀ s, s ∈ subtaskStatuses issue
                     ↔ ∃ subt, subt ∈ subtasks issue ∧ s = upper (subtask_status_name subt)).
  { intros s. unfold subtaskStatuses.
    rewrite elem_of_list_to_set, list_elem_of_fmap. naive_solver. }
  assert (H1 : ¬ subtaskStatuses issue ⊆ ({[DONE; ACCEPTED]} : gset string)).
  { intros Hsub. apply Hdone, Forall_forall. intros subt Hsubt.
    assert (upper (subtask_status_name subt) ∈ ({[DONE; ACCEPTED]} : gset string))
      by (apply Hsub, Hin; eauto).
    set_solver. }
  assert (H2 : ¬ subtaskStatuses issue ⊆ ({[TO_DO]} : gset string)).
  { intros Hsub. apply Htodo, Forall_forall. intros subt Hsubt.
    assert (upper (subtask_status_name subt) ∈ ({[TO_DO]} : gset string))
      by (apply Hsub, Hin; eauto).
    set_solver. }
  assert (H3 : ¬ subtaskStatuses issue ∩ ({[BLOCKED]} : gset string) ≠ ∅).
  { intros Hmeet. apply Hmeet. apply set_eq. intros s. split; [|set_solver].
    intros [[subt [Hsubt ->]]%Hin Hs]%elem_of_intersection.
    exfalso. apply Hbusy, Exists_exists. exists subt. set_solver. }
  assert (H4 : ¬ subtaskStatuses issue ∩ ({[IN_PROGRESS]} : gset string) ≠ ∅).
  { intros Hmeet. apply Hmeet. apply set_eq. intros s. split; [|set_solver].
    intros [[subt [Hsubt ->]]%Hin Hs]%elem_of_intersection.
    exfalso. apply Hbusy, Exists_exists. exists subt. set_solver. }
  assert (Hnone : matchedTarget issue = None).
  { unfold matchedTarget, STATUS_RULES, satisfies, isSatisfied. simpl.
    by rewrite (bool_decide_eq_false_2 _ H1), (bool_decide_eq_false_2 _ H2),
      (bool_decide_eq_false_2 _ H3), (bool_decide_eq_false_2 _ H4). }
  rewrite updateStatusIfNeeded_run. cbv zeta. rewrite Hnone.
  by destruct (decide (upper (status_name issue) ∈ MODIFIABLE_STATUS)).
Qed.

Lemma mixed_subtasks_match_no_rule_witness :
  updateStatusIfNeeded (server [] (λ _, [])) (story "P-2" "Blocked" ["To Do"; "Done"])
    false start
  = (Return false,
     after start [Log INFO (StatusChangeResult "P-2" "Blocked" "Blocked" false)]).
Proof.
  apply (mixed_subtasks_match_no_rule (server [] (λ _, []))
           (story "P-2" "Blocked" ["To Do"; "Done"]) false start).
  - intros Hall. apply Forall_cons in Hall as [Hfirst _]. revert Hfirst.
    apply (bool_decide_unpack _). vm_compute. exact I.
  - intros Hall. apply Forall_cons in Hall as [_ Hrest].
    apply Forall_cons in Hrest as [Hsecond _]. discriminate Hsecond.
  - intros Hsome. apply Exists_cons in Hsome as [Hfirst|Hrest].
    + revert Hfirst. apply (bool_decide_unpack _). vm_compute. exact I.
    + apply Exists_cons in Hrest as [Hsecond|Hnone].
      * revert Hsecond. apply (bool_decide_unpack _). vm_compute. exact I.
      * by apply Exists_nil in Hnone.
Defined.

(** ** What a run sends and logs *)

Lemma search_calls_app (events more : list event) :
  search_calls (events ++ more) = search_calls events ++ search_calls more.
Proof.
  induction events as [|[| |] events IH]; simpl; [done|done| |done]. by rewrite IH.
Qed.

Lemma issues_trace_search_calls (taken : list Issue) (new : list event) :
  issues_trace taken new → search_calls new = [].
Proof.
  induction 1 as [|issue rest new more Hnew _ IH]; [done|]. simpl.
  rewrite search_calls_app, IH. by destruct Hnew.
Qed.

(** X13.  What one evaluation logs and returns.  When [updateStatusIfNeeded]
    returns, it has added either its log record alone, with the change flag
    False, or one transition call followed by the record with the flag
    True; the flag is True only outside dry-run, and the value returned is
    whether the logged new status is another string than the old one. *)
Theorem log_record_of_decision {up : Upper} {B : Type} (jira : JIRA B) (issue : Issue)
    (dryrun : bool) (r r' : Run B) (changed : bool) :
  updateStatusIfNeeded jira issue dryrun r = (Return changed, r') →
  ∃ (newStatus : string) (didStatusChanged : bool),
    trace r'
    = trace r
      ++ (if didStatusChanged then [transition_issue_call (key issue) newStatus] else [])
      ++ [Log INFO (StatusChangeResult (key issue) (status_name issue) newStatus
                                       didStatusChanged)]
    ∧ changed = bool_decide (status_name issue ≠ newStatus)
    ∧ (didStatusChanged = true → dryrun = false ∧ changed = true)
    ∧ (didStatusChanged = false → backend r' = backend r).
Proof.
  rewrite updateStatusIfNeeded_run. cbv zeta.
  destruct (if decide (upper (status_name issue) ∈ MODIFIABLE_STATUS)
            then matchedTarget issue else None) as [newStatus|].
  2:{ intros [= <- <-]. exists (status_name issue), false. simpl.
      split; [done|]. split; [|done].
      symmetry. apply bool_decide_eq_false_2. by intros Hne; apply Hne. }
  destruct (bool_decide (newStatus ≠ status_name issue)) eqn:Hdiff; simpl.
  2:{ intros [= <- <-]. by exists newStatus, false. }
  destruct dryrun; simpl.
  { intros [= <- <-]. by exists newStatus, false. }
  destruct (transition jira (key issue) newStatus (backend r)) as [[[]|e] b]; [|done].
  intros [= <- <-]. exists newStatus, true. simpl.
  split; [done|]. split; [|done].
  apply bool_decide_eq_true in Hdiff. symmetry. by apply bool_decide_eq_true_2.
Qed.

Lemma log_record_of_decision_witness :
  updateStatusIfNeeded (server [] (λ _, [])) (story "P-1" "To Do" ["Blocked"]) false start
  = (Return true,
     mkRun () [transition_issue_call "P-1" "BLOCKED";
               Log INFO (StatusChangeResult "P-1" "To Do" "BLOCKED" true)])
  ∧ ∃ (newStatus : string) (didStatusChanged : bool),
      [transition_issue_call "P-1" "BLOCKED";
       Log INFO (StatusChangeResult "P-1" "To Do" "BLOCKED" true)]
      = []
        ++ (if didStatusChanged then [transition_issue_call "P-1" newStatus] else [])
        ++ [Log INFO (StatusChangeResult "P-1" "To Do" newStatus didStatusChanged)]
      ∧ true = bool_decide ("To Do" ≠ newStatus)
      ∧ (didStatusChanged = true → false = false ∧ true = true)
      ∧ (didStatusChanged = false → () = ()).
Proof.
  assert (Hrun :
    updateStatusIfNeeded (server [] (λ _, [])) (story "P-1" "To Do" ["Blocked"]) false start
    = (Return true,
       mkRun () [transition_issue_call "P-1" "BLOCKED";
                 Log INFO (StatusChangeResult "P-1" "To Do" "BLOCKED" true)]))
    by (by vm_compute).
  split; [exact Hrun|].
  exact (log_record_of_decision _ _ _ _ _ _ Hrun).
Defined.

(** X14.  Every transition call one evaluation makes is for the key of its
    issue, is made outside dry-run for an issue of modifiable status, and
    asks for one of DONE, TO DO, BLOCKED, IN PROGRESS, never ACCEPTED and
    never the very string of the current status. *)
Theorem transition_call_conditions {up : Upper} {B : Type} (jira : JIRA B)
    (issue : Issue) (dryrun : bool) (r : Run B) :
  ∃ new : list event,
    trace (updateStatusIfNeeded jira issue dryrun r).2 = trace r ++ new
    ∧ ∀ issueKey newStatus,
        (issueKey, newStatus) ∈ transition_calls new →
        issueKey = key issue
        ∧ dryrun = false
        ∧ upper (status_name issue) ∈ MODIFIABLE_STATUS
        ∧ newStatus ∈ [DONE; TO_DO; BLOCKED; IN_PROGRESS]
        ∧ (newStatus ∉ NON_MODIFIABLE_STATUS)
        ∧ newStatus ≠ status_name issue.
Proof.
  rewrite updateStatusIfNeeded_run. cbv zeta.
  destruct (decide (upper (status_name issue) ∈ MODIFIABLE_STATUS)) as [Hmod|Hmod].
  2:{ eexists. split; [done|]. intros k t Hin. by apply elem_of_nil in Hin. }
  destruct (matchedTarget issue) as [target|] eqn:Htarget.
  2:{ eexists. split; [done|]. intros k t Hin. by apply elem_of_nil in Hin. }
  destruct (bool_decide (target ≠ status_name issue)) eqn:Hdiff; simpl.
  2:{ eexists. split; [done|]. intros k t Hin. by apply elem_of_nil in Hin. }
  destruct dryrun; simpl.
  { eexists. split; [done|]. intros k t Hin. by apply elem_of_nil in Hin. }
  apply bool_decide_eq_true in Hdiff.
  pose proof (matchedTarget_in_table issue target Htarget) as Htable.
  assert (Hcall : ∀ more k t,
            (k, t) ∈ transition_calls (transition_issue_call (key issue) target :: more) →
            transition_calls more = [] →
            k = key issue ∧ false = false
            ∧ upper (status_name issue) ∈ MODIFIABLE_STATUS
            ∧ t ∈ [DONE; TO_DO; BLOCKED; IN_PROGRESS]
            ∧ (t ∉ NON_MODIFIABLE_STATUS) ∧ t ≠ status_name issue).
  { intros more k t Hin Hmore. simpl in Hin. rewrite Hmore in Hin.
    apply list_elem_of_singleton in Hin as [= -> ->].
    repeat split; try done.
    unfold NON_MODIFIABLE_STATUS. set_solver. }
  destruct (transition jira (key issue) target (backend r)) as [[[]|e] b]; simpl.
  - eexists. split; [done|]. intros k t Hin. by apply (Hcall _ _ _ Hin).
  - eexists. split; [done|]. intros k t Hin. by apply (Hcall _ _ _ Hin).
Qed.

Section Sent.
Context {up : Upper} {B : Type}.
Implicit Types (jira : JIRA B) (issue : Issue) (r : Run B).

(** The statuses a run may ask the server for. *)
Lemma updateStatusIfNeeded_asks jira issue (dryrun : bool) r :
  ∃ new : list event,
    trace (updateStatusIfNeeded jira issue dryrun r).2 = trace r ++ new
    ∧ Forall (λ call : string * string, call.2 ∈ [DONE; TO_DO; BLOCKED; IN_PROGRESS])
             (transition_calls new).
Proof.
  rewrite updateStatusIfNeeded_run. cbv zeta.
  destruct (decide (upper (status_name issue) ∈ MODIFIABLE_STATUS)) as [Hmod|Hmod].
  2:{ eexists. split; [done|constructor]. }
  destruct (matchedTarget issue) as [target|] eqn:Htarget.
  2:{ eexists. split; [done|constructor]. }
  pose proof (matchedTarget_in_table issue target Htarget) as Htable.
  destruct (bool_decide (target ≠ status_name issue) && negb dryrun).
  2:{ eexists. split; [done|constructor]. }
  destruct (transition jira (key issue) target (backend r)) as [[[]|e] b]; simpl.
  - eexists. split; [done|]. simpl. constructor; [exact Htable|constructor].
  - eexists. split; [done|]. simpl. constructor; [exact Htable|constructor].
Qed.

Lemma main_issues_asks jira (dryrun : bool) (issues : list Issue)
    (possibleChanges performedChanges : nat) r :
  ∃ new : list event,
    trace (main_issues jira dryrun issues possibleChanges performedChanges r).2
    = trace r ++ new
    ∧ Forall (λ call : string * string, call.2 ∈ [DONE; TO_DO; BLOCKED; IN_PROGRESS])
             (transition_calls new).
Proof.
  revert possibleChanges performedChanges r.
  induction issues as [|issue rest IH]; intros possibleChanges performedChanges r.
  { exists []. split; [by rewrite app_nil_r|constructor]. }
  rewrite main_issues_cons.
  destruct (updateStatusIfNeeded_asks jira issue dryrun
              (after r [Log DEBUG (PerformingVerification (key issue)
                                     (issuetype_name issue))]))
    as (new & Htrace & Hnew).
  destruct (updateStatusIfNeeded jira issue dryrun _) as [[changed|e] r1];
    simpl in Htrace.
  - destruct (IH (possibleChanges + 1)%nat
                 (if changed then (performedChanges + 1)%nat else performedChanges) r1)
      as (more & Htrace' & Hmore).
    exists ([Log DEBUG (PerformingVerification (key issue) (issuetype_name issue))]
              ++ new ++ more).
    split; [rewrite Htrace', Htrace; by rewrite <- !app_assoc|].
    simpl. rewrite transition_calls_app. by apply Forall_app.
  - exists ([Log DEBUG (PerformingVerification (key issue) (issuetype_name issue))]
              ++ new).
    split; [simpl; rewrite Htrace; by rewrite <- !app_assoc|done].
Qed.

(** The loop over the projects: the projects it searched, in order, and
    what it asked the server for. *)
Lemma main_projects_sent jira (dryrun : bool) (projectIDs : list string) r :
  ∃ (new : list event) (searched : list string),
    trace (main_projects jira dryrun projectIDs r).2 = trace r ++ new
    ∧ searched `prefix_of` projectIDs
    ∧ search_calls new = (λ projectId, (jql projectId, 1000)) <$> searched
    ∧ ((main_projects jira dryrun projectIDs r).1 = Return () → searched = projectIDs)
    ∧ Forall (λ call : string * string, call.2 ∈ [DONE; TO_DO; BLOCKED; IN_PROGRESS])
             (transition_calls new).
Proof.
  revert r. induction projectIDs as [|projectId rest IH]; intros r.
  { exists [], []. split; [by rewrite app_nil_r|]. by repeat split. }
  cbn [main_projects]. unfold search_issues, try_except. run_simpl.
  destruct (matching jira (jql projectId) (backend r)) as [[found|e] b]; simpl.
  - destruct (main_issues_trace jira dryrun (take 1000 found) 0 0
                (mkRun b ((trace r ++ [Log DEBUG (StartProject projectId)])
                          ++ [search_issues_call (jql projectId) 1000])))
      as (taken & new & _ & Hnew & _ & Htrace & _).
    destruct (main_issues_asks jira dryrun (take 1000 found) 0 0
                (mkRun b ((trace r ++ [Log DEBUG (StartProject projectId)])
                          ++ [search_issues_call (jql projectId) 1000])))
      as (new' & Htrace' & Hasks).
    rewrite Htrace in Htrace'. apply app_inv_head in Htrace'. subst new'.
    pose proof (issues_trace_search_calls _ _ Hnew) as Hquiet.
    destruct (main_issues jira dryrun (take 1000 found) 0 0 _)
      as [[[possibleChanges performedChanges]|e] r1]; simpl in Htrace.
    + destruct (IH (mkRun (backend r1)
                      (trace r1 ++ [Log INFO (EndOfOperations possibleChanges
                                                performedChanges)])))
        as (more & searched & Hmore & Hprefix & Hsearch & Hall & Hsent).
      exists ([Log DEBUG (StartProject projectId)]
                ++ [search_issues_call (jql projectId) 1000]
                ++ new
                ++ [Log INFO (EndOfOperations possibleChanges performedChanges)]
                ++ more), (projectId :: searched).
      split; [rewrite Hmore; simpl; rewrite Htrace; by rewrite <- !app_assoc|].
      split; [by apply prefix_cons|]. split.
      { simpl. rewrite search_calls_app, Hquiet. simpl. by rewrite Hsearch. }
      split; [intros Hret; by rewrite (Hall Hret)|].
      simpl. rewrite transition_calls_app. simpl. by apply Forall_app.
    + exists ([Log DEBUG (StartProject projectId)]
                ++ [search_issues_call (jql projectId) 1000] ++ new), [projectId].
      split; [simpl; rewrite Htrace; by rewrite <- !app_assoc|].
      split; [apply prefix_cons, prefix_nil|]. split.
      { simpl. by rewrite Hquiet. }
      split; [done|done].
  - destruct (IH (mkRun b (((trace r ++ [Log DEBUG (StartProject projectId)])
                            ++ [search_issues_call (jql projectId) 1000])
                           ++ [Log ERROR (QueryError e)])))
      as (more & searched & Hmore & Hprefix & Hsearch & Hall & Hsent).
    exists ([Log DEBUG (StartProject projectId)]
              ++ [search_issues_call (jql projectId) 1000]
              ++ [Log ERROR (QueryError e)] ++ more), (projectId :: searched).
    split; [rewrite Hmore; simpl; by rewrite <- !app_assoc|].
    split; [by apply prefix_cons|]. split.
    { simpl. by rewrite Hsearch. }
    split; [intros Hret; by rewrite (Hall Hret)|done].
Qed.

End Sent.

(** X15.  A run of [main] searches the projects in the order of the list,
    each one once, with its own query and [maxResults=1000], whether earlier
    searches failed or not: the searches of a run that returns are those of
    the whole list, and those of a run that raises are those of a prefix of
    it.  Every transition call of the run asks for one of DONE, TO DO,
    BLOCKED, IN PROGRESS. *)
Theorem searches_and_targets_of_run {up : Upper} {B : Type} (jira : JIRA B)
    (dryrun : bool) (projectIDs : list string) (r : Run B) :
  ∃ (new : list event) (searched : list string),
    trace (main jira dryrun projectIDs r).2 = trace r ++ new
    ∧ searched `prefix_of` projectIDs
    ∧ search_calls new = (λ projectId, (jql projectId, 1000)) <$> searched
    ∧ ((main jira dryrun projectIDs r).1 = Return () → searched = projectIDs)
    ∧ Forall (λ call : string * string, call.2 ∈ [DONE; TO_DO; BLOCKED; IN_PROGRESS])
             (transition_calls new).
Proof.
  unfold main. destruct (decide (length projectIDs = 0)) as [Hnil|Hsome].
  { exists [], []. split; [by rewrite app_nil_r|]. split; [apply prefix_nil|].
    by repeat split. }
  run_simpl.
  destruct (main_projects_sent jira dryrun projectIDs
              (mkRun (backend r) (trace r ++ [Log INFO (DryrunMode dryrun)])))
    as (new & searched & Htrace & Hprefix & Hsearch & Hall & Hsent).
  exists ([Log INFO (DryrunMode dryrun)] ++ new), searched.
  split; [rewrite Htrace; simpl; by rewrite <- app_assoc|].
  by repeat split.
Qed.

(** ** The counters of a project *)

(** X16.  When the loop over the issues of a project returns, the first
    counter has grown by the number of issues and the second by the number
    of issues for which a change is needed, so by no more than the first;
    neither depends on the dry-run flag or on what the server answered. *)
Theorem counters_of_loop {up : Upper} {B : Type} (jira : JIRA B) (dryrun : bool)
    (issues : list Issue) (possibleChanges performedChanges : nat) (r r' : Run B)
    (counts : nat * nat) :
  main_issues jira dryrun issues possibleChanges performedChanges r = (Return counts, r') →
  counts.1 = (possibleChanges + length issues)%nat
  ∧ counts.2 = (performedChanges
                + length (filter (λ issue, changeNeeded issue = true) issues))%nat
  ∧ (performedChanges ≤ counts.2)%nat
  ∧ (counts.2 - performedChanges ≤ counts.1 - possibleChanges)%nat.
Proof.
  intros Hret.
  destruct (main_issues_trace jira dryrun issues possibleChanges performedChanges r)
    as (taken & new & _ & _ & _ & _ & Hcounts).
  rewrite Hret in Hcounts. destruct (Hcounts counts eq_refl) as (_ & Hp & Hq).
  pose proof (length_filter (λ issue, changeNeeded issue = true) issues) as Hle.
  split; [done|]. split; [done|]. lia.
Qed.

(** Three stories: one to move, one in place, one protected. *)
Lemma counters_of_loop_witness :
  main_issues (server [] (λ _, [])) false
    [story "P-1" "TO DO" ["DONE"]; story "P-2" "DONE" ["DONE"];
     story "P-3" "ACCEPTED" ["BLOCKED"]] 0 0 start
  = (Return (3, 1),
     mkRun () [Log DEBUG (PerformingVerification "P-1" "Story");
               transition_issue_call "P-1" "DONE";
               Log INFO (StatusChangeResult "P-1" "TO DO" "DONE" true);
               Log DEBUG (PerformingVerification "P-2" "Story");
               Log INFO (StatusChangeResult "P-2" "DONE" "DONE" false);
               Log DEBUG (PerformingVerification "P-3" "Story");
               Log INFO (StatusChangeResult "P-3" "ACCEPTED" "ACCEPTED" false)])
  ∧ (3, 1).1 = (0 + 3)%nat.
Proof.
  assert (Hrun :
    main_issues (server [] (λ _, [])) false
      [story "P-1" "TO DO" ["DONE"]; story "P-2" "DONE" ["DONE"];
       story "P-3" "ACCEPTED" ["BLOCKED"]] 0 0 start
    = (Return (3, 1),
       mkRun () [Log DEBUG (PerformingVerification "P-1" "Story");
                 transition_issue_call "P-1" "DONE";
                 Log INFO (StatusChangeResult "P-1" "TO DO" "DONE" true);
                 Log DEBUG (PerformingVerification "P-2" "Story");
                 Log INFO (StatusChangeResult "P-2" "DONE" "DONE" false);
                 Log DEBUG (PerformingVerification "P-3" "Story");
                 Log INFO (StatusChangeResult "P-3" "ACCEPTED" "ACCEPTED" false)]))
    by (by vm_compute).
  split; [exact Hrun|].
  exact (proj1 (counters_of_loop _ _ _ _ _ _ _ _ Hrun)).
Defined.

(** X17.  In every summary a run of [main] logs, the number of detected
    changes is at most the number of issues counted. *)
Theorem summaries_of_run {up : Upper} {B : Type} (jira : JIRA B) (dryrun : bool)
    (projectIDs : list string) (r : Run B) :
  ∃ new : list event,
    trace (main jira dryrun projectIDs r).2 = trace r ++ new
    ∧ ∀ lvl possibleChanges performedChanges,
        Log lvl (EndOfOperations possibleChanges performedChanges) ∈ new →
        (performedChanges ≤ possibleChanges)%nat.
Proof.
  destruct (main_pieces capped jira dryrun projectIDs r) as (new & Htrace & _ & He).
  - apply capped_nil.
  - apply capped_app.
  - split; [intros ?? Hin|intros ??? Hin]; by apply list_elem_of_singleton in Hin.
  - intros p. split; [intros ?? Hin|intros ??? Hin];
      by apply list_elem_of_singleton in Hin.
  - intros p. split; [intros ?? Hin|intros ??? Hin];
      apply list_elem_of_singleton in Hin; by simplify_eq.
  - intros e. split; [intros ?? Hin|intros ??? Hin];
      by apply list_elem_of_singleton in Hin.
  - intros taken new _ Hnew _. by apply (issues_trace_capped taken).
  - intros p q Hp Hq. split; [intros ?? Hin|intros ??? Hin];
      apply list_elem_of_singleton in Hin; by simplify_eq.
  - exists new. split; [exact Htrace|].
    intros lvl p q Hin. by destruct (He lvl p q Hin).
Qed.

(** ** The transitions a run makes *)

Section Owed.
Context {up : Upper} {B : Type}.
Implicit Types (jira : JIRA B) (issue : Issue) (r : Run B).

Lemma updateStatusIfNeeded_owed jira issue r (changed : bool) r' :
  updateStatusIfNeeded jira issue false r = (Return changed, r') →
  ∃ new,
    trace r' = trace r ++ new
    ∧ transition_calls new = option_list (owed_transition issue)
    ∧ changed = bool_decide (is_Some (owed_transition issue)).
Proof.
  assert (Hnone : bool_decide (is_Some (@None (string * string))) = false).
  { apply bool_decide_eq_false_2. by intros [? [=]]. }
  assert (Hsome : ∀ call : string * string, bool_decide (is_Some (Some call)) = true).
  { intros call. apply bool_decide_eq_true_2. by exists call. }
  rewrite updateStatusIfNeeded_run. cbv zeta. unfold owed_transition.
  destruct (if decide (upper (status_name issue) ∈ MODIFIABLE_STATUS)
            then matchedTarget issue else None) as [newStatus|].
  2:{ intros [= <- <-]. rewrite Hnone. eexists. by split. }
  destruct (bool_decide (newStatus ≠ status_name issue)) eqn:Hdiff.
  - rewrite Hsome. simpl.
    destruct (transition jira (key issue) newStatus (backend r)) as [[[]|e] b]; [|done].
    intros [= <- <-]. eexists. by split.
  - rewrite Hnone. simpl. intros [= <- <-]. eexists. split; [done|]. split; [done|].
    apply bool_decide_eq_false in Hdiff. apply dec_stable in Hdiff.
    apply bool_decide_eq_false_2. intros Hne. by apply Hne.
Qed.

End Owed.

(** X18.  Outside dry-run, when the loop over the issues of a project
    returns, the transition calls it made are exactly the owed ones, one for
    each issue of modifiable status whose matched target is another string
    than its status, in the order of the issues; and the second counter has
    grown by their number. *)
Theorem transitions_of_loop {up : Upper} {B : Type} (jira : JIRA B)
    (issues : list Issue) (possibleChanges performedChanges : nat) (r r' : Run B)
    (counts : nat * nat) :
  main_issues jira false issues possibleChanges performedChanges r = (Return counts, r') →
  ∃ new,
    trace r' = trace r ++ new
    ∧ transition_calls new = omap owed_transition issues
    ∧ counts.2 = (performedChanges + length (transition_calls new))%nat.
Proof.
  revert possibleChanges performedChanges r.
  induction issues as [|issue rest IH]; intros possibleChanges performedChanges r.
  { intros [= <- <-]. exists []. rewrite app_nil_r. simpl. split; [done|].
    split; [done|lia]. }
  rewrite main_issues_cons.
  destruct (updateStatusIfNeeded jira issue false _) as [[changed|e] r1] eqn:Hupd;
    [|done].
  apply updateStatusIfNeeded_owed in Hupd as (new & Htrace & Hcalls & ->).
  intros Hrest. apply IH in Hrest as (more & Htrace' & Hcalls' & Hcount).
  exists ([Log DEBUG (PerformingVerification (key issue) (issuetype_name issue))]
            ++ new ++ more).
  split; [rewrite Htrace', Htrace; simpl; by rewrite <- !app_assoc|].
  simpl. rewrite transition_calls_app, Hcalls, Hcalls'.
  rewrite Hcount, Hcalls'.
  destruct (owed_transition issue) as [call|]; simpl.
  - rewrite ?bool_decide_eq_true_2 by eauto. split; [done|lia].
  - rewrite ?bool_decide_eq_false_2 by (by intros [? [=]]). split; [done|lia].
Qed.

Lemma transitions_of_loop_witness :
  main_issues (server [] (λ _, [])) false
    [story "P-1" "TO DO" ["DONE"]; story "P-2" "DONE" ["DONE"];
     story "P-3" "To Do" ["Blocked"]] 0 0 start
  = (Return (3, 2),
     mkRun () [Log DEBUG (PerformingVerification "P-1" "Story");
               transition_issue_call "P-1" "DONE";
               Log INFO (StatusChangeResult "P-1" "TO DO" "DONE" true);
               Log DEBUG (PerformingVerification "P-2" "Story");
               Log INFO (StatusChangeResult "P-2" "DONE" "DONE" false);
               Log DEBUG (PerformingVerification "P-3" "Story");
               transition_issue_call "P-3" "BLOCKED";
               Log INFO (StatusChangeResult "P-3" "To Do" "BLOCKED" true)])
  ∧ omap owed_transition
      [story "P-1" "TO DO" ["DONE"]; story "P-2" "DONE" ["DONE"];
       story "P-3" "To Do" ["Blocked"]]
    = [("P-1", "DONE"); ("P-3", "BLOCKED")].
Proof.
  assert (Hrun :
    main_issues (server [] (λ _, [])) false
      [story "P-1" "TO DO" ["DONE"]; story "P-2" "DONE" ["DONE"];
       story "P-3" "To Do" ["Blocked"]] 0 0 start
    = (Return (3, 2),
       mkRun () [Log DEBUG (PerformingVerification "P-1" "Story");
                 transition_issue_call "P-1" "DONE";
                 Log INFO (StatusChangeResult "P-1" "TO DO" "DONE" true);
                 Log DEBUG (PerformingVerification "P-2" "Story");
                 Log INFO (StatusChangeResult "P-2" "DONE" "DONE" false);
                 Log DEBUG (PerformingVerification "P-3" "Story");
                 transition_issue_call "P-3" "BLOCKED";
                 Log INFO (StatusChangeResult "P-3" "To Do" "BLOCKED" true)]))
    by (by vm_compute).
  split; [exact Hrun|].
  destruct (transitions_of_loop _ _ _ _ _ _ _ Hrun) as (new & Htrace & Hcalls & _).
  rewrite <- Hcalls. simpl in Htrace. by rewrite <- Htrace.
Defined.

(** ** The policies over more subtasks and larger accepted sets *)

Section Aggregation.
Context {up : Upper} {B : Type}.

Lemma isRuleApplicable_all_app (A : gset string) (subs more : list Subtask) :
  isRuleApplicable_all A (subs ++ more)
  = isRuleApplicable_all A subs && isRuleApplicable_all A more.
Proof.
  induction subs as [|subt subs IH]; simpl; [done|].
  by destruct (decide (upper (subtask_status_name subt) ∉ A)).
Qed.

Lemma isRuleApplicable_at_least_one_app (A : gset string) (subs more : list Subtask) :
  isRuleApplicable_at_least_one A (subs ++ more)
  = isRuleApplicable_at_least_one A subs || isRuleApplicable_at_least_one A more.
Proof.
  induction subs as [|subt subs IH]; simpl; [done|].
  by destruct (decide (upper (subtask_status_name subt) ∈ A)).
Qed.

Lemma isRuleApplicable_all_run (issue : Issue) (A : gset string) (r : Run B) :
  isRuleApplicable issue RULE_POLICY_ALL A r
  = (Return (isRuleApplicable_all A (subtasks issue)), r).
Proof. unfold isRuleApplicable. by rewrite decide_True. Qed.

Lemma isRuleApplicable_at_least_one_run (issue : Issue) (A : gset string) (r : Run B) :
  isRuleApplicable issue RULE_POLICY_AT_LEAST_ONE A r
  = (Return (isRuleApplicable_at_least_one A (subtasks issue)), r).
Proof.
  unfold isRuleApplicable. rewrite decide_False by done. by rewrite decide_True.
Qed.

End Aggregation.

(** X19.  Over the subtasks of two issues put together, the [all] policy
    holds iff it holds of both, and the [at_least_one] policy iff it holds
    of one of them: more subtasks can only turn an [all] rule off and an
    [at_least_one] rule on. *)
Theorem policies_over_more_subtasks {up : Upper} {B : Type} (issue more : Issue)
    (A : gset string) (r : Run B) :
  let both := mkIssue (key issue) (status_name issue) (issuetype_name issue)
                      (subtasks issue ++ subtasks more) in
  ∃ all1 all2 one1 one2 : bool,
    isRuleApplicable issue RULE_POLICY_ALL A r = (Return all1, r)
    ∧ isRuleApplicable more RULE_POLICY_ALL A r = (Return all2, r)
    ∧ isRuleApplicable both RULE_POLICY_ALL A r = (Return (all1 && all2), r)
    ∧ isRuleApplicable issue RULE_POLICY_AT_LEAST_ONE A r = (Return one1, r)
    ∧ isRuleApplicable more RULE_POLICY_AT_LEAST_ONE A r = (Return one2, r)
    ∧ isRuleApplicable both RULE_POLICY_AT_LEAST_ONE A r = (Return (one1 || one2), r).
Proof.
  intros both.
  exists (isRuleApplicable_all A (subtasks issue)),
         (isRuleApplicable_all A (subtasks more)),
         (isRuleApplicable_at_least_one A (subtasks issue)),
         (isRuleApplicable_at_least_one A (subtasks more)).
  rewrite !isRuleApplicable_all_run, !isRuleApplicable_at_least_one_run. subst both.
  simpl. by rewrite isRuleApplicable_all_app, isRuleApplicable_at_least_one_app.
Qed.

(** X20.  With an empty accepted set, the [all] policy holds of the issues
    without subtasks only, and the [at_least_one] policy of no issue. *)
Theorem policies_with_empty_accepted_set {up : Upper} {B : Type} (issue : Issue)
    (r : Run B) :
  isRuleApplicable issue RULE_POLICY_ALL ∅ r
  = (Return (bool_decide (subtasks issue = [])), r)
  ∧ isRuleApplicable issue RULE_POLICY_AT_LEAST_ONE ∅ r = (Return false, r).
Proof.
  rewrite isRuleApplicable_all_run, isRuleApplicable_at_least_one_run.
  destruct (subtasks issue) as [|subt rest]; [done|]. simpl. split.
  - by rewrite decide_True by set_solver.
  - rewrite decide_False by set_solver. do 2 f_equal.
    induction rest as [|subt' rest IH]; [done|]. simpl.
    by rewrite decide_False by set_solver.
Qed.

(** X21.  A larger accepted set keeps a rule applicable, under either
    policy. *)
Theorem policies_in_larger_accepted_set {up : Upper} {B : Type} (issue : Issue)
    (rulePolicy : string) (A A' : gset string) (r : Run B) :
  A ⊆ A' →
  (isRuleApplicable issue rulePolicy A r).1 = Return true →
  (isRuleApplicable issue rulePolicy A' r).1 = Return true.
Proof.
  intros Hsub. rewrite !isRuleApplicable_isSatisfied. simpl. unfold isSatisfied.
  destruct (decide (rulePolicy = RULE_POLICY_ALL)) as [_|_].
  { intros [= Hall%bool_decide_eq_true]. f_equal. apply bool_decide_eq_true. set_solver. }
  destruct (decide (rulePolicy = RULE_POLICY_AT_LEAST_ONE)) as [_|_]; [|done].
  intros [= Hone%bool_decide_eq_true]. f_equal. apply bool_decide_eq_true. set_solver.
Qed.

Lemma policies_in_larger_accepted_set_witness :
  ({[ DONE ]} : gset string) ⊆ {[ DONE; ACCEPTED ]}
  ∧ (isRuleApplicable (B := ()) (story "P-1" "To Do" ["Done"; "done"])
       RULE_POLICY_ALL {[ DONE; ACCEPTED ]} start).1 = Return true.
Proof.
  assert (Hsub : ({[ DONE ]} : gset string) ⊆ {[ DONE; ACCEPTED ]}) by set_solver.
  split; [exact Hsub|].
  refine (policies_in_larger_accepted_set (story "P-1" "To Do" ["Done"; "done"])
            RULE_POLICY_ALL {[ DONE ]} {[ DONE; ACCEPTED ]} start Hsub _).
  by vm_compute.
Defined.
